(** * dedup-archive: removing duplicated ggml objects from a static library

    A shallow embedding of [dedup-archive.py] and the properties of its
    reader ([parse_ar]), of the dedup policy and of the orchestration in
    [main].

    Conventions of the embedding.
    - Python [bytes] are [list byte].
    - Python [str] is [string]; a code point above 127 is held by its UTF-8
      bytes.  The only such code point the program can produce is U+FFFD,
      the replacement character of [decode(..., errors="replace")].  UTF-8
      keeps equality and prefixes of code point sequences, which is all the
      program asks of a name.
    - A raised exception is a value of [exn]; fallible code returns
      [result].
    - The file system is a finite map from paths to contents.  Directories
      are not modelled: the temporary directory is taken to exist once it
      is made and to hold no directory, and creating a file below it fails
      for the names Python or the system (Linux) refuse, see
      [open_wb_error].  The external commands ([cp] and [ar], both taken to
      be installed) and the name of the temporary directory are parameters
      of [main]. *)

From Stdlib Require Import ZArith NArith Strings.Ascii Strings.String Strings.Byte.
From Stdlib Require Import DecimalNat DecimalString.
From stdpp Require Import base option list gmap sets strings sorting.

#[local] Set Warnings "-clear-no-such-hyp".

Local Open Scope string_scope.
Local Open Scope Z_scope.
Local Open Scope nat_scope.

#[global] Instance byte_eq_dec : EqDecision byte := λ x y,
  match Byte.eqb x y as b return Byte.eqb x y = b → Decision (x = y) with
  | true => λ H, left (Byte.byte_dec_bl x y H)
  | false => λ H, right (Byte.eqb_false H)
  end eq_refl.

(** ** Exceptions and results *)

Inductive exn : Type :=
  | AssertionError (magic : list byte)
  | UnicodeDecodeError
  | ValueError
  | IndexError
  | FileNotFoundError (path : string)
  | IsADirectoryError (path : string)
  | OSError (errno : Z) (path : string)
  | CalledProcessError (returncode : Z).

Inductive result (A : Type) : Type :=
  | Ok (a : A)
  | Raise (e : exn).
Arguments Ok {A} a.
Arguments Raise {A} e.

(** The error monad, with stdpp's [x ← r; k] notation. *)
#[global] Instance result_ret : MRet result := @Ok.
#[global] Instance result_bind : MBind result := λ A B k r,
  match r with
  | Ok a => k a
  | Raise e => Raise e
  end.

(** ** The Python built-ins the program uses *)

Module Py.

(** [str.isspace] on the ASCII range: TAB, LF, VT, FF, CR, the four
    separators 0x1c-0x1f and the space. *)
Definition is_space (c : ascii) : bool :=
  let n := N_of_ascii c in
  ((9 <=? n) && (n <=? 13) || (28 <=? n) && (n <=? 32))%N.

Fixpoint lstrip_by (p : ascii → bool) (s : string) : string :=
  match s with
  | String c s' => if p c then lstrip_by p s' else s
  | EmptyString => EmptyString
  end.

Fixpoint rstrip_by (p : ascii → bool) (s : string) : string :=
  match s with
  | String c s' =>
      match rstrip_by p s' with
      | EmptyString => if p c then EmptyString else String c EmptyString
      | r => String c r
      end
  | EmptyString => EmptyString
  end.

(** [s.strip()] *)
Definition strip (s : string) : string :=
  rstrip_by is_space (lstrip_by is_space s).

(** [s.rstrip(chars)] for a one-character [chars] *)
Definition rstrip (c : ascii) (s : string) : string :=
  rstrip_by (Ascii.eqb c) s.

(** [b.rstrip(b"\x00")] *)
Fixpoint rstrip_nul (b : list byte) : list byte :=
  match b with
  | x :: b' =>
      match rstrip_nul b' with
      | [] => if Byte.eqb x x00 then [] else [x]
      | r => x :: r
      end
  | [] => []
  end.

(** [s.startswith(p)] *)
Definition startswith (p s : string) : bool := String.prefix p s.

(** [s[n:]] for [0 <= n] *)
Fixpoint str_drop (n : nat) (s : string) : string :=
  match n, s with
  | S n', String _ s' => str_drop n' s'
  | _, _ => s
  end.

Definition is_ascii (x : byte) : bool := (Byte.to_N x <? 128)%N.

Definition str_of_bytes (b : list byte) : string :=
  string_of_list_ascii (ascii_of_byte <$> b).

(** [b.decode("ascii")]: strict, the first byte above 127 raises. *)
Definition decode_ascii (b : list byte) : result string :=
  if forallb is_ascii b then Ok (str_of_bytes b) else Raise UnicodeDecodeError.

(** U+FFFD in UTF-8. *)
Definition replacement_character : string :=
  String (ascii_of_N 239) (String (ascii_of_N 191) (String (ascii_of_N 189) EmptyString)).

(** [b.decode("ascii", errors="replace")]: every byte above 127 becomes
    one U+FFFD. *)
Fixpoint decode_ascii_replace (b : list byte) : string :=
  match b with
  | x :: b' =>
      (if is_ascii x then String (ascii_of_byte x) EmptyString
       else replacement_character) ++ decode_ascii_replace b'
  | [] => EmptyString
  end.

Definition is_digit (c : ascii) : bool :=
  let n := N_of_ascii c in ((48 <=? n) && (n <=? 57))%N.

Definition digit_val (c : ascii) : Z := Z.of_N (N_of_ascii c) - 48.

(** The digits of a decimal literal: a digit, then digits each optionally
    preceded by one underscore.  [after_digit] says the previous character
    was a digit. *)
Fixpoint int_digits (acc : Z) (after_digit : bool) (s : string) : option Z :=
  match s with
  | String c s' =>
      if is_digit c then int_digits (10 * acc + digit_val c) true s'
      else if Ascii.eqb c "_" && after_digit then int_digits acc false s'
      else None
  | EmptyString => if after_digit then Some acc else None
  end.

(** The white space [int] skips around a literal in an ASCII string: TAB,
    LF, VT, FF, CR and the space, and not the separators 0x1c-0x1f that
    [str.strip] drops. *)
Definition is_int_space (c : ascii) : bool :=
  let n := N_of_ascii c in
  ((9 <=? n) && (n <=? 13) || (n =? 32))%N.

(** [int(s)] for an ASCII [s]: surrounding white space is dropped, then an
    optional sign and a decimal literal are read; anything else raises
    [ValueError]. *)
Definition int (s : string) : result Z :=
  let parsed :=
    match rstrip_by is_int_space (lstrip_by is_int_space s) with
    | String "-" d => Z.opp <$> int_digits 0 false d
    | String "+" d => int_digits 0 false d
    | d => int_digits 0 false d
    end in
  match parsed with
  | Some z => Ok z
  | None => Raise ValueError
  end.

(** [b[:n]] and [b[n:]]; a negative [n] counts from the end. *)
Definition slice_bound {A} (n : Z) (b : list A) : nat :=
  if (n <? 0)%Z then Z.to_nat (Z.max 0 (Z.of_nat (length b) + n))
  else Z.to_nat (Z.min n (Z.of_nat (length b))).

Definition slice_to {A} (n : Z) (b : list A) : list A := take (slice_bound n b) b.
Definition slice_from {A} (n : Z) (b : list A) : list A := drop (slice_bound n b) b.

(** [str(n)] of a natural number, and [f"{n:05d}"]. *)
Definition str_of_nat (n : nat) : string := NilEmpty.string_of_uint (Nat.to_uint n).

Fixpoint zeros (k : nat) : string :=
  match k with
  | O => EmptyString
  | S k' => String "0" (zeros k')
  end.

Definition format_05d (n : nat) : string :=
  let d := str_of_nat n in zeros (5 - String.length d) ++ d.

(** A binary file object open for reading: its content and the position
    [f.tell()] reports. *)
Record file : Type := File { f_content : list byte; f_pos : nat }.

(** [f.read(n)] for [-1 <= n]: up to [n] bytes from the current position;
    everything that is left when [n] is [-1]. *)
Definition read (n : Z) (f : file) : list byte * file :=
  let rest := drop (f_pos f) (f_content f) in
  let chunk := slice_to (if (n <? 0)%Z then Z.of_nat (length rest) else n) rest in
  (chunk, File (f_content f) (f_pos f + length chunk)).

(** [f.read(n)] for a computed [n]: a buffered reader raises [ValueError]
    when [n < -1]. *)
Definition read_size (n : Z) (f : file) : result (list byte * file) :=
  if (n <? -1)%Z then Raise ValueError else Ok (read n f).

End Py.

(** ** The reader: [parse_ar] *)

Definition member : Type := string * list byte.

(** [b"!<arch>\n"] *)
Definition ar_magic : list byte :=
  [x21; x3c; x61; x72; x63; x68; x3e; x0a]%byte.

(** Lines 30-31: the two header fields the reader looks at. *)
Definition header_fields (header : list byte) : result (string * Z) :=
  s ← Py.decode_ascii (take 16 header);
  let name_field := Py.strip s in
  t ← Py.decode_ascii (take 10 (drop 48 header));
  size ← Py.int (Py.strip t);
  Ok (name_field, size).

(** Lines 35-41: the name and the content of a member. *)
Definition resolve_member (name_field : string) (data : list byte) : result member :=
  if Py.startswith "#1/" name_field then
    name_len ← Py.int (Py.str_drop 3 name_field);
    Ok (Py.decode_ascii_replace (Py.rstrip_nul (Py.slice_to name_len data)),
        Py.slice_from name_len data)
  else
    Ok (Py.rstrip "/" name_field, data).

(** Line 44: symbol table and string table entries. *)
Definition is_special (member_name : string) : bool :=
  Py.startswith "__.SYMDEF" member_name
  || bool_decide (member_name ∈ ["/"; "//"; ""]).

(** The [while True] loop of [parse_ar], collected into a list as
    [list(parse_ar(path))] does: an exception raised on the way discards
    the members yielded so far.  [None] is running out of fuel. *)
Fixpoint parse_members (fuel : nat) (f : Py.file) : option (result (list member)) :=
  match fuel with
  | O => None
  | S fuel' =>
      let f := if Nat.odd (Py.f_pos f) then (Py.read 1 f).2 else f in
      let '(header, f) := Py.read 60 f in
      if decide (length header < 60) then Some (Ok [])
      else
        match header_fields header with
        | Raise e => Some (Raise e)
        | Ok (name_field, size) =>
            match Py.read_size size f with
            | Raise e => Some (Raise e)
            | Ok (data, f) =>
                match resolve_member name_field data with
                | Raise e => Some (Raise e)
                | Ok (member_name, object_data) =>
                    if is_special member_name then parse_members fuel' f
                    else
                      match parse_members fuel' f with
                      | Some (Ok ms) => Some (Ok ((member_name, object_data) :: ms))
                      | r => r
                      end
                end
            end
        end
  end.

(** [list(parse_ar(path))] on the content of the file at [path]. *)
Definition parse_ar (content : list byte) : option (result (list member)) :=
  let '(magic, f) := Py.read 8 (Py.File content 0) in
  if decide (magic = ar_magic) then parse_members (S (length content)) f
  else Some (Raise (AssertionError magic)).

(** ** The dedup policy (lines 60-83 of [main]) *)

Definition duplicate_candidates : gset string :=
  {[ "ggml.c.o"; "ggml-alloc.c.o"; "ggml-backend.c.o"; "ggml-quants.c.o" ]}.

(** [Counter(names)]; [counts[n]] is [counts !!! n], 0 for a missing key. *)
Definition Counter (names : list string) : gmap string nat :=
  foldl (λ counts n, <[n := S (counts !!! n)]> counts) ∅ names.

Definition actual_dups (names : list string) : gset string :=
  filter (λ n, 1 < Counter names !!! n) duplicate_candidates.

Fixpoint enumerate_from {A} (i : nat) (l : list A) : list (nat * A) :=
  match l with
  | x :: l' => (i, x) :: enumerate_from (S i) l'
  | [] => []
  end.

(** [enumerate(l)] *)
Definition enumerate {A} (l : list A) : list (nat * A) := enumerate_from 0 l.

(** One iteration of the loop of lines 78-83 on the state
    [(seen, skip_indices)]. *)
Definition mark_first (dups : gset string)
    (st : gmap string nat * gset nat) (ix : nat * string) : gmap string nat * gset nat :=
  let '(seen, skip_indices) := st in
  let '(i, name) := ix in
  if decide (name ∈ dups) then
    match seen !! name with
    | None => (<[name := i]> seen, skip_indices)
    | Some first => (seen, {[first]} ∪ skip_indices)
    end
  else st.

Definition mark_loop (dups : gset string) (names : list string) : gmap string nat * gset nat :=
  foldl (mark_first dups) (∅, ∅) (enumerate names).

(** The drop set: what [skip_indices] holds after line 83.  On the fast
    path [actual_dups] is empty, the loop is not reached, and the loop
    would mark nothing. *)
Definition skip_indices (names : list string) : gset nat :=
  (mark_loop (actual_dups names) names).2.

(** The records the loop of lines 92-100 does not skip, with their
    indices. *)
Definition kept {A} (skip : gset nat) (l : list A) : list (nat * A) :=
  filter (λ ix, ix.1 ∉ skip) (enumerate l).

(** The names that survive the dedup pass. *)
Definition surviving_names (names : list string) : list string :=
  (kept (skip_indices names) names).*2.

(** ** The process: file system, standard output and system calls *)

(** The calls the program makes to its environment, recorded as they are
    made, whether they succeed or not. *)
Inductive syscall : Type :=
  | OpenRead (path : string)
  | OpenWrite (path : string)
  | PathExists (path : string)
  | Remove (path : string)
  | MkDTemp (dir : string)
  | RmTree (dir : string)
  | Spawn (cmd : list string).

Record world : Type := World {
  fs : gmap string (list byte);
  stdout : list string;
  trace : list syscall
}.

Definition print (line : string) (w : world) : world :=
  World (fs w) (stdout w ++ [line])%list (trace w).

Definition sys (c : syscall) (w : world) : world :=
  World (fs w) (stdout w) (trace w ++ [c])%list.

Definition set_fs (m : gmap string (list byte)) (w : world) : world :=
  World m (stdout w) (trace w).

(** How the process ends: [sys.exit(n)] or falling off [main] (status 0),
    or an exception nobody catches (the interpreter prints the traceback
    and the status is 1). *)
Inductive outcome : Type :=
  | Exit (status : Z)
  | Uncaught (e : exn).

Definition exit_status (o : outcome) : Z :=
  match o with
  | Exit status => status
  | Uncaught _ => 1
  end.

(** [os.path.join(tmpdir, out_name)] for a relative [out_name]. *)
Definition path_join (dir name : string) : string := dir ++ "/" ++ name.

(** Line 96 *)
Definition out_name (i : nat) (name : string) : string :=
  Py.format_05d i ++ "_" ++ name.

(** The limits of the file system (Linux): the bytes of a file name, and
    those of a path with its closing NUL. *)
Definition NAME_MAX : nat := 255.
Definition PATH_MAX : nat := 4096.

Definition has_nul (s : string) : bool :=
  existsb (Ascii.eqb zero) (list_ascii_of_string s).

Definition all_slashes (s : string) : bool :=
  forallb (Ascii.eqb "/") (list_ascii_of_string s).

(** [name] up to its first slash, and what stands behind that slash when
    there is one. *)
Fixpoint split_slash (name : string) : string * option string :=
  match name with
  | String c s =>
      if Ascii.eqb c "/" then (EmptyString, Some s)
      else let '(first, rest) := split_slash s in (String c first, rest)
  | EmptyString => (EmptyString, None)
  end.

(** What [open(os.path.join(dir, name), "wb")] of line 98 raises, if
    anything.  [dir] is the temporary directory: it exists, can be written
    to and holds the files staged so far and no directory; [name] begins
    with a digit, as every [out_name] does; paths are encoded in UTF-8.
    Python refuses a path with a NUL before it calls the system.  The system refuses a path of
    [PATH_MAX] bytes or more (errno 36); a name that only slashes follow
    asks for a directory (errno 21); another name with a slash lies in a
    directory that is not there (errno 2), and a first component of more
    than [NAME_MAX] bytes is too long to look up or to create
    (errno 36). *)
Definition open_wb_error (dir name : string) : option exn :=
  let path := path_join dir name in
  if has_nul path then Some ValueError
  else if PATH_MAX <=? String.length path then Some (OSError 36 path)
  else
    let '(first, rest) := split_slash name in
    match rest with
    | Some behind =>
        if all_slashes behind then Some (IsADirectoryError path)
        else if NAME_MAX <? String.length first then Some (OSError 36 path)
        else Some (FileNotFoundError path)
    | None =>
        if NAME_MAX <? String.length first then Some (OSError 36 path)
        else None
    end.

(** Leaving the [with tempfile.TemporaryDirectory()] block: the directory
    and all it holds are removed. *)
Definition rmtree (dir : string) (m : gmap string (list byte)) : gmap string (list byte) :=
  filter (λ kv, ¬ Py.startswith (dir ++ "/") kv.1) m.

Section Main.

(** The environment.  [run cmd m] is the external command [cmd] started on
    the file system [m]: the file system it leaves and its return code.
    [mkdtemp m] is the name of the directory
    [tempfile.TemporaryDirectory()] creates. *)
Variable run : list string → gmap string (list byte) → gmap string (list byte) * Z.
Variable mkdtemp : gmap string (list byte) → string.

(** [subprocess.run(cmd)] *)
Definition subprocess_run (cmd : list string) (w : world) : Z * world :=
  let '(m, returncode) := run cmd (fs w) in
  (returncode, set_fs m (sys (Spawn cmd) w)).

(** One iteration of the loop of lines 92-100 on [(extracted, w)]: the
    new [extracted], or the exception [open] raises, and the world. *)
Definition stage_member (tmpdir : string) (skip_indices : gset nat)
    (st : list string * world) (im : nat * member) : result (list string) * world :=
  let '(extracted, w) := st in
  let '(i, (name, data)) := im in
  if decide (i ∈ skip_indices) then (Ok extracted, w)
  else
    let out_path := path_join tmpdir (out_name i name) in
    let w := sys (OpenWrite out_path) w in
    match open_wb_error tmpdir (out_name i name) with
    | Some e => (Raise e, w)
    | None => (Ok (extracted ++ [out_path])%list, set_fs (<[out_path := data]> (fs w)) w)
    end.

(** The loop of lines 92-100: an exception ends it. *)
Fixpoint stage_loop (tmpdir : string) (skip_indices : gset nat)
    (st : list string * world) (ims : list (nat * member)) : result (list string) * world :=
  match ims with
  | im :: ims' =>
      match stage_member tmpdir skip_indices st im with
      | (Ok extracted, w) => stage_loop tmpdir skip_indices (extracted, w) ims'
      | (Raise e, w) => (Raise e, w)
      end
  | [] => (Ok st.1, st.2)
  end.

Definition stage (tmpdir : string) (skip_indices : gset nat)
    (members : list member) (w : world) : result (list string) * world :=
  stage_loop tmpdir skip_indices ([], w) (enumerate members).

(** Lines 85-87 *)
Definition report (skip : gset nat) (names : list string) (w : world) : world :=
  foldl (λ w idx, print ("  [" ++ Py.str_of_nat idx ++ "] " ++ names !!! idx) w)
    (print ("Removing " ++ Py.str_of_nat (size skip) ++ " whisper ggml objects:") w)
    (merge_sort (≤) (elements skip)).

(** Lines 89-109: stage the survivors, remove an existing output, rebuild
    with [ar], leave the temporary directory.  An exception raised inside
    the [with] block leaves it too: the directory is removed and the
    exception goes on. *)
Definition repack (output_path : string) (skip : gset nat)
    (members : list member) (w : world) : outcome * world :=
  let tmpdir := mkdtemp (fs w) in
  let w := sys (MkDTemp tmpdir) w in
  match stage tmpdir skip members w with
  | (Raise e, w) => (Uncaught e, set_fs (rmtree tmpdir (fs w)) (sys (RmTree tmpdir) w))
  | (Ok extracted, w) =>
      let w := print ("Repacking " ++ Py.str_of_nat (length extracted)
                      ++ " objects into " ++ output_path) w in
      let w := sys (PathExists output_path) w in
      let w :=
        if decide (is_Some (fs w !! output_path))
        then set_fs (delete output_path (fs w)) (sys (Remove output_path) w)
        else w in
      let '(returncode, w) := subprocess_run (["ar"; "rcs"; output_path] ++ extracted)%list w in
      let w := set_fs (rmtree tmpdir (fs w)) (sys (RmTree tmpdir) w) in
      if decide (returncode = 0%Z) then (Exit 0, print "Done!" w)
      else (Uncaught (CalledProcessError returncode), w)
  end.

(** [main()], with [sys.argv] and the world it starts in.  [None] is the
    reader running out of fuel. *)
Definition main (argv : list string) (w : world) : option (outcome * world) :=
  match argv with
  | [_; input_path; output_path] =>
      let w := sys (OpenRead input_path) w in
      match fs w !! input_path with
      | None => Some (Uncaught (FileNotFoundError input_path), w)
      | Some content =>
          match parse_ar content with
          | None => None
          | Some (Raise e) => Some (Uncaught e, w)
          | Some (Ok members) =>
              let names := members.*1 in
              if decide (actual_dups names = ∅) then
                let w := print "No duplicate ggml objects found, copying as-is" w in
                let '(_, w) := subprocess_run ["cp"; input_path; output_path] w in
                Some (Exit 0, w)
              else
                let skip := skip_indices names in
                Some (repack output_path skip members (report skip names w))
          end
      end
  | argv0 :: _ =>
      Some (Exit 1, print ("Usage: " ++ argv0 ++ " <input.a> <output.a>") w)
  | [] => Some (Uncaught IndexError, w)
  end.

End Main.

(** * Vocabulary of the properties *)

(** Bytes left between the position of [f] and the end of its content. *)
Definition remaining (f : Py.file) : nat := length (Py.f_content f) - Py.f_pos f.

(** The file as the loop sees it after the alignment step of lines
    22-24. *)
Definition align (f : Py.file) : Py.file :=
  if Nat.odd (Py.f_pos f) then (Py.read 1 f).2 else f.

(** The reserved names, as the archive format has them: the symbol table
    ([__.SYMDEF...]), the string tables and the empty name. *)
Definition special_name (name : string) : Prop :=
  (∃ rest, name = "__.SYMDEF" ++ rest) ∨ name = "/" ∨ name = "//" ∨ name = "".

(** How often [n] occurs in [names]. *)
Definition occurrences (n : string) (names : list string) : nat :=
  length (filter (λ x, x = n) names).

(** [i] is the index of the first occurrence of [n] in [names]. *)
Definition first_occurrence (n : string) (names : list string) (i : nat) : Prop :=
  names !! i = Some n ∧ ∀ j, j < i → names !! j ≠ Some n.

(** The path a surviving record is staged under. *)
Definition staged_path (tmpdir : string) (im : nat * member) : string :=
  path_join tmpdir (out_name im.1 im.2.1).

(** The file system after the staging loop. *)
Definition staged_fs (tmpdir : string) (ims : list (nat * member))
    (m : gmap string (list byte)) : gmap string (list byte) :=
  foldl (λ m im, <[staged_path tmpdir im := im.2.2]> m) m ims.

(** A record whose file can be made below [tmpdir]. *)
Definition stageable (tmpdir : string) (im : nat * member) : Prop :=
  open_wb_error tmpdir (out_name im.1 im.2.1) = None.

(** * Sample archives and environments *)

(** The bytes of an ASCII string. *)
Definition bytes_of (s : string) : list byte :=
  byte_of_ascii <$> list_ascii_of_string s.

(** A header field: [b], padded with spaces to [n] bytes. *)
Definition field (n : nat) (b : list byte) : list byte :=
  (b ++ replicate (n - length b) x20)%list.

(** A 60-byte member header: name, date, owner, group, mode, size and the
    two terminator bytes. *)
Definition ar_header (name_field : list byte) (size : nat) : list byte :=
  (field 16 name_field ++ field 12 (bytes_of "0") ++ field 6 (bytes_of "0")
   ++ field 6 (bytes_of "0") ++ field 8 (bytes_of "644")
   ++ field 10 (bytes_of (Py.str_of_nat size)) ++ [x60; x0a])%list.

(** A member under its short name, padded to an even length. *)
Definition ar_member (name_field : list byte) (data : list byte) : list byte :=
  (ar_header name_field (length data) ++ data
   ++ if Nat.odd (length data) then [x0a] else [])%list.

(** Scenario 1 of the specification: [a.o, ggml.c.o, b.o, ggml.c.o]. *)
Definition archive_scenario1 : list byte :=
  (ar_magic ++ ar_member (bytes_of "a.o/") (bytes_of "AAA")
   ++ ar_member (bytes_of "ggml.c.o/") (bytes_of "whisper")
   ++ ar_member (bytes_of "b.o/") (bytes_of "BB")
   ++ ar_member (bytes_of "ggml.c.o/") (bytes_of "llama"))%list.

Definition members_scenario1 : list member :=
  [("a.o", bytes_of "AAA"); ("ggml.c.o", bytes_of "whisper");
   ("b.o", bytes_of "BB"); ("ggml.c.o", bytes_of "llama")].

(** Scenario 2: [a.o, b.o]. *)
Definition archive_scenario2 : list byte :=
  (ar_magic ++ ar_member (bytes_of "a.o/") (bytes_of "AAA")
   ++ ar_member (bytes_of "b.o/") (bytes_of "BB"))%list.

Definition members_scenario2 : list member :=
  [("a.o", bytes_of "AAA"); ("b.o", bytes_of "BB")].

(** Scenario 3: [ggml.c.o] at the indices 0, 2 and 5. *)
Definition names_scenario3 : list string :=
  ["ggml.c.o"; "a.o"; "ggml.c.o"; "b.o"; "c.o"; "ggml.c.o"].

(** One member, then a header cut off after 30 bytes. *)
Definition archive_truncated : list byte :=
  (ar_magic ++ ar_member (bytes_of "a.o/") (bytes_of "AAAA")
   ++ take 30 (ar_header (bytes_of "b.o/") 2))%list.

(** A member whose short name holds the byte 0xe9 (Latin-1 e-acute):
    [caf\xe9.o]. *)
Definition latin1_name : list byte := [x63; x61; x66; xe9; x2e; x6f].

Definition archive_latin1_short : list byte :=
  (ar_magic ++ ar_member latin1_name (bytes_of "AAAA"))%list.

(** The same member under the BSD extended name form [#1/8]: the name and
    two NUL bytes lead the payload. *)
Definition archive_latin1_extended : list byte :=
  (ar_magic
   ++ ar_member (bytes_of "#1/8") (latin1_name ++ [x00; x00] ++ bytes_of "AAAA"))%list.

(** An environment in which [cp] copies and every other command fails
    with status 1 and touches nothing. *)
Definition cp_only (cmd : list string) (m : gmap string (list byte))
    : gmap string (list byte) * Z :=
  match cmd with
  | ["cp"; src; dst] =>
      match m !! src with
      | Some content => (<[dst := content]> m, 0%Z)
      | None => (m, 1%Z)
      end
  | _ => (m, 1%Z)
  end.

(** An environment in which every command fails with status 1 and
    touches nothing. *)
Definition no_commands (cmd : list string) (m : gmap string (list byte))
    : gmap string (list byte) * Z := (m, 1%Z).

Definition tmp (m : gmap string (list byte)) : string := "/tmp/tmpk3v9q".

(** A world that holds the archive [content] at [in.a] and the earlier
    output [old] at [out.a]. *)
Definition world_with (content : list byte) (old : option (list byte)) : world :=
  World (match old with
         | Some b => <["out.a" := b]> {["in.a" := content]}
         | None => {["in.a" := content]}
         end) [] [].

(** One member whose header announces 100 bytes where 4 are left. *)
Definition archive_short_payload : list byte :=
  (ar_magic ++ ar_header (bytes_of "a.o/") 100 ++ bytes_of "AAAA")%list.

(** The index of the first occurrence of [n] in [names]; the length of
    [names] when there is none. *)
Fixpoint first_index (n : string) (names : list string) : nat :=
  match names with
  | x :: names' => if decide (x = n) then 0 else S (first_index n names')
  | [] => 0
  end.

(** An environment in which [ar] writes an empty archive at its
    destination and returns 0, and every other command fails. *)
Definition ar_stub (cmd : list string) (m : gmap string (list byte))
    : gmap string (list byte) * Z :=
  match cmd with
  | "ar" :: "rcs" :: dst :: _ => (<[dst := ar_magic]> m, 0%Z)
  | _ => (m, 1%Z)
  end.

(** A character of a plain member name: ASCII, no white space, no
    slash. *)
Definition name_char (c : ascii) : bool :=
  (N_of_ascii c <? 128)%N && negb (Py.is_space c) && negb (Ascii.eqb c "/").

(** A name the 16-byte field holds as [name/]: one to fifteen plain
    characters, not the marker of an extended name, not a symbol table. *)
Definition short_name (name : string) : bool :=
  (1 <=? String.length name) && (String.length name <=? 15)
  && forallb name_char (list_ascii_of_string name)
  && negb (String.eqb name "#1")
  && negb (Py.startswith "__.SYMDEF" name).

(** The three ways an archive holds the name of a member: in the name
    field with a closing slash (GNU), in the name field as it is (BSD), or
    as [#1/N] with the name, padded with [padding] NUL bytes to [N] bytes,
    in front of the payload (BSD, extended). *)
Inductive name_form : Type :=
  | GnuShort
  | BsdShort
  | BsdExtended (padding : nat).

Definition name_field_of (form : name_form) (name : string) : string :=
  match form with
  | GnuShort => name ++ "/"
  | BsdShort => name
  | BsdExtended padding => "#1/" ++ Py.str_of_nat (String.length name + padding)
  end.

Definition payload_of (form : name_form) (m : member) : list byte :=
  match form with
  | BsdExtended padding => (bytes_of m.1 ++ replicate padding x00 ++ m.2)%list
  | _ => m.2
  end.

(** The record of a member in a form: header, payload, pad byte. *)
Definition ar_entry (e : name_form * member) : list byte :=
  ar_member (bytes_of (name_field_of e.1 e.2.1)) (payload_of e.1 e.2).

(** A character of an extended name: ASCII, not NUL. *)
Definition long_name_char (c : ascii) : bool :=
  (0 <? N_of_ascii c)%N && (N_of_ascii c <? 128)%N.

(** The names a form holds.  An extended name may have spaces and
    slashes; its length with the padding must fit the name field. *)
Definition valid_name (form : name_form) (name : string) : bool :=
  match form with
  | GnuShort => short_name name
  | BsdShort =>
      (1 <=? String.length name) && (String.length name <=? 16)
      && forallb name_char (list_ascii_of_string name)
      && negb (Py.startswith "__.SYMDEF" name)
  | BsdExtended padding =>
      (1 <=? String.length name)
      && forallb long_name_char (list_ascii_of_string name)
      && negb (is_special name)
      && (String.length (Py.str_of_nat (String.length name + padding)) <=? 13)
  end.

(** An entry the reader can read back: a valid name, and a payload whose
    length has at most ten decimal digits. *)
Definition valid_entry (e : name_form * member) : Prop :=
  valid_name e.1 e.2.1 = true
  ∧ String.length (Py.str_of_nat (length (payload_of e.1 e.2))) ≤ 10.

(** The records of [entries], one after the other. *)
Definition ar_records (entries : list (name_form * member)) : list byte :=
  mjoin (ar_entry <$> entries).

(** An archive as GNU [ar] writes it: the string table [//] holds the
    name [ggml-backend.c.o], too long for the name field, and the member
    of that name refers to it as [/0]; around it, two copies of a
    candidate. *)
Definition archive_gnu_long_name : list byte :=
  (ar_magic ++ ar_member (bytes_of "//") (bytes_of "ggml-backend.c.o/" ++ [x0a])
   ++ ar_member (bytes_of "ggml.c.o/") (bytes_of "whisper")
   ++ ar_member (bytes_of "/0") (bytes_of "backend")
   ++ ar_member (bytes_of "ggml.c.o/") (bytes_of "llama"))%list.

Definition members_gnu_long_name : list member :=
  [("ggml.c.o", bytes_of "whisper"); ("/0", bytes_of "backend");
   ("ggml.c.o", bytes_of "llama")].



(** The last component of a path. *)
Fixpoint basename (path : string) : string :=
  match path with
  | String c s =>
      if existsb (Ascii.eqb "/") (list_ascii_of_string s) then basename s
      else if Ascii.eqb c "/" then s
      else path
  | EmptyString => EmptyString
  end.

(** An environment with [cp] and with an [ar] in the manner of BSD: the
    archive it writes holds one member per file, in the order given, under
    the name of the file, in the name field where the name fits and in the
    extended form where it does not. *)
Definition ar_and_cp (cmd : list string) (m : gmap string (list byte))
    : gmap string (list byte) * Z :=
  match cmd with
  | "ar" :: "rcs" :: dst :: files =>
      match mapM (λ f, (λ data, (basename f, data)) <$> m !! f) files with
      | Some ms =>
          (<[dst := (ar_magic
                     ++ ar_records ((λ m, (if valid_name BsdShort m.1 then BsdShort
                                           else BsdExtended 0, m)) <$> ms))%list]> m,
           0%Z)
      | None => (m, 1%Z)
      end
  | _ => cp_only cmd m
  end.




(** What the loop needs of a record with the name field [name_field] and
    the payload [payload] to yield the member [m]. *)
Definition readable_record (name_field : string) (payload : list byte) (m : member) : Prop :=
  name_field ≠ ""
  ∧ String.length name_field ≤ 16
  ∧ Forall (λ c, (N_of_ascii c <? 128)%N = true ∧ Py.is_space c = false)
      (list_ascii_of_string name_field)
  ∧ String.length (Py.str_of_nat (length payload)) ≤ 10
  ∧ resolve_member name_field payload = Ok m
  ∧ is_special m.1 = false.

(** [k] spaces. *)
Definition spaces (k : nat) : string := string_of_list_ascii (replicate k " "%char).

(** No character of [s] satisfies [p]. *)
Definition free_of (p : ascii → bool) (s : string) : Prop :=
  Forall (λ c, p c = false) (list_ascii_of_string s).

(** A string of decimal digits. *)
Definition all_digits (s : string) : Prop :=
  Forall (λ c, Py.is_digit c = true) (list_ascii_of_string s).

(** One line of the report of lines 86-87. *)
Definition report_line (names : list string) (idx : nat) : string :=
  "  [" ++ Py.str_of_nat idx ++ "] " ++ names !!! idx.

(** The exceptions the loop of the reader can raise. *)
Definition loop_error (e : exn) : Prop := e = UnicodeDecodeError ∨ e = ValueError.

(** * Properties *)

(** ** The reader *)

Section Reader.

Implicit Types (f : Py.file) (n : Z) (fuel : nat).

Lemma slice_to_length {A} n (b : list A) : length (Py.slice_to n b) ≤ length b.
Proof. unfold Py.slice_to. rewrite length_take. lia. Qed.

Lemma read_content n f : Py.f_content (Py.read n f).2 = Py.f_content f.
Proof. done. Qed.

Lemma read_pos n f : Py.f_pos (Py.read n f).2 = Py.f_pos f + length (Py.read n f).1.
Proof. done. Qed.

Lemma read_length n f : length (Py.read n f).1 ≤ remaining f.
Proof.
  unfold Py.read, remaining; simpl.
  etrans; [apply slice_to_length|]. by rewrite length_drop.
Qed.

Lemma read_remaining n f :
  remaining (Py.read n f).2 = remaining f - length (Py.read n f).1.
Proof. unfold remaining. rewrite read_content, read_pos. lia. Qed.

(** A read of a non-negative count returns no more than was asked for. *)
Lemma read_at_most n f : (0 ≤ n)%Z → length (Py.read n f).1 ≤ Z.to_nat n.
Proof.
  intros Hn. unfold Py.read; simpl. destruct (Z.ltb_spec n 0); [lia|].
  unfold Py.slice_to, Py.slice_bound. destruct (Z.ltb_spec n 0); [lia|].
  rewrite length_take. lia.
Qed.

Lemma align_remaining f : remaining (align f) ≤ remaining f.
Proof.
  unfold align. destruct (Nat.odd _); [|done]. rewrite read_remaining. lia.
Qed.

(** The loop body, unfolded once. *)
Lemma parse_members_step fuel f :
  parse_members (S fuel) f =
    let '(header, f1) := Py.read 60 (align f) in
    if decide (length header < 60) then Some (Ok [])
    else
      match header_fields header with
      | Raise e => Some (Raise e)
      | Ok (name_field, size) =>
          match Py.read_size size f1 with
          | Raise e => Some (Raise e)
          | Ok (data, f2) =>
              match resolve_member name_field data with
              | Raise e => Some (Raise e)
              | Ok (member_name, object_data) =>
                  if is_special member_name then parse_members fuel f2
                  else
                    match parse_members fuel f2 with
                    | Some (Ok ms) => Some (Ok ((member_name, object_data) :: ms))
                    | r => r
                    end
              end
          end
      end.
Proof. done. Qed.

Lemma read_size_Ok n f data f' :
  Py.read_size n f = Ok (data, f') → Py.read n f = (data, f').
Proof. unfold Py.read_size. destruct (n <? -1)%Z; [done|]. congruence. Qed.

(** Every iteration that goes on has read a full header, so the loop ends
    within as many iterations as bytes are left. *)
Lemma parse_members_total fuel f :
  remaining f < fuel → is_Some (parse_members fuel f).
Proof.
  revert f. induction fuel as [|fuel IH]; intros f Hfuel; [lia|].
  rewrite parse_members_step.
  pose proof (align_remaining f) as Ha.
  pose proof (read_remaining 60 (align f)) as Hr.
  pose proof (read_length 60 (align f)) as Hh.
  destruct (Py.read 60 (align f)) as [header f1] eqn:E1; simpl in Hr, Hh.
  case_decide as Hlen; [by eexists|].
  destruct (header_fields header) as [[name_field size]|e]; [|by eexists].
  destruct (Py.read_size size f1) as [[data f2]|e] eqn:E2; [|by eexists].
  apply read_size_Ok in E2.
  pose proof (read_remaining size f1) as Hr2. rewrite E2 in Hr2; simpl in Hr2.
  destruct (resolve_member name_field data) as [[member_name object_data]|e];
    [|by eexists].
  assert (is_Some (parse_members fuel f2)) as [r Hrec] by (apply IH; lia).
  destruct (is_special member_name); rewrite Hrec; [by eexists|].
  destruct r as [ms|e]; by eexists.
Qed.

Lemma parse_ar_total content : is_Some (parse_ar content).
Proof.
  unfold parse_ar.
  pose proof (read_remaining 8 (Py.File content 0)) as Hr.
  destruct (Py.read 8 _) as [magic f] eqn:E; simpl in Hr.
  case_decide; [|by eexists].
  apply parse_members_total. unfold remaining in *; simpl in *. lia.
Qed.

(** [startswith] is the prefix relation. *)
Lemma startswith_spec p s : Py.startswith p s = true ↔ ∃ rest, s = p ++ rest.
Proof.
  unfold Py.startswith. revert s.
  induction p as [|a p IH]; intros [|b s]; simpl.
  - split; [by exists ""|done].
  - split; [by exists (String b s)|done].
  - split; [done|by intros [? ?]].
  - destruct (ascii_dec a b) as [->|Hne].
    + rewrite IH. split; intros [rest E]; exists rest.
      * by rewrite E.
      * by injection E.
    + split; [done|]. intros [rest E]. injection E as E1 E2. done.
Qed.

Lemma is_special_spec name : is_special name = true ↔ special_name name.
Proof.
  unfold is_special, special_name.
  rewrite orb_true_iff, startswith_spec, bool_decide_eq_true.
  rewrite !elem_of_cons, elem_of_nil. tauto.
Qed.

Lemma parse_members_not_special fuel f ms :
  parse_members fuel f = Some (Ok ms) → Forall (λ m, ¬ special_name m.1) ms.
Proof.
  revert f ms. induction fuel as [|fuel IH]; intros f ms; [done|].
  rewrite parse_members_step.
  destruct (Py.read 60 (align f)) as [header f1].
  case_decide; [by intros [= <-]|].
  destruct (header_fields header) as [[name_field size]|e]; [|done].
  destruct (Py.read_size size f1) as [[data f2]|e]; [|done].
  destruct (resolve_member name_field data) as [[member_name object_data]|e];
    [|done].
  destruct (is_special member_name) eqn:Hsp; [by apply IH|].
  destruct (parse_members fuel f2) as [[ms'|e]|] eqn:Hrec; [|done..].
  intros [= <-]. constructor; [|by eapply IH].
  simpl. rewrite <-is_special_spec. congruence.
Qed.

(** Fewer than 60 bytes where a header is expected end the loop. *)
Lemma parse_members_short_header fuel f :
  remaining (align f) < 60 → parse_members (S fuel) f = Some (Ok []).
Proof.
  intros Hshort. rewrite parse_members_step.
  pose proof (read_length 60 (align f)) as Hh.
  destruct (Py.read 60 (align f)) as [header f1]; simpl in Hh.
  case_decide; [done|lia].
Qed.

Lemma read_magic rest :
  Py.read 8 (Py.File (ar_magic ++ rest) 0) = (ar_magic, Py.File (ar_magic ++ rest) 8).
Proof.
  unfold Py.read, Py.slice_to, Py.slice_bound; simpl.
  rewrite (Nat2Z.inj_succ (S _)), Z.min_l by lia. done.
Qed.

Lemma parse_ar_magic rest :
  parse_ar (ar_magic ++ rest)
  = parse_members (S (length (ar_magic ++ rest))) (Py.File (ar_magic ++ rest) 8).
Proof. unfold parse_ar. rewrite read_magic. by case_decide. Qed.

Lemma parse_ar_short_header rest :
  length rest < 60 → parse_ar (ar_magic ++ rest) = Some (Ok []).
Proof.
  intros Hshort. rewrite parse_ar_magic. apply parse_members_short_header.
  unfold align, remaining; simpl. lia.
Qed.

End Reader.

(** ** The dedup policy *)

Section Policy.

Implicit Types (names pre : list string) (n : string) (i j : nat).

Lemma occurrences_cons n x names :
  occurrences n (x :: names) = (if decide (x = n) then 1 else 0) + occurrences n names.
Proof. unfold occurrences. rewrite filter_cons. by case_decide. Qed.

Lemma occurrences_app n l1 l2 :
  occurrences n (l1 ++ l2) = occurrences n l1 + occurrences n l2.
Proof. unfold occurrences. by rewrite filter_app, length_app. Qed.

Lemma occurrences_snoc n pre x :
  occurrences n (pre ++ [x]) = occurrences n pre + (if decide (x = n) then 1 else 0).
Proof. rewrite occurrences_app, occurrences_cons. unfold occurrences; simpl. lia. Qed.

Lemma occurrences_pos n names : 0 < occurrences n names ↔ n ∈ names.
Proof.
  induction names as [|x names IH].
  { rewrite elem_of_nil. unfold occurrences; simpl. lia. }
  rewrite occurrences_cons, elem_of_cons. case_decide; [|naive_solver lia].
  split; [by left|lia].
Qed.

Lemma occurrences_zero n names : n ∉ names → occurrences n names = 0.
Proof. rewrite <-occurrences_pos. lia. Qed.

(** The counter of line 67 counts occurrences. *)
Lemma Counter_fold (counts : gmap string nat) names n :
  foldl (λ counts n, <[n := S (counts !!! n)]> counts) counts names !!! n
  = counts !!! n + occurrences n names.
Proof.
  revert counts. induction names as [|x names IH]; intros counts; simpl.
  { unfold occurrences; simpl. lia. }
  rewrite IH, occurrences_cons. case_decide as Hx.
  - subst. rewrite lookup_total_insert_eq. lia.
  - by rewrite lookup_total_insert_ne.
Qed.

Lemma Counter_occurrences names n : Counter names !!! n = occurrences n names.
Proof. unfold Counter. by rewrite Counter_fold, lookup_total_empty. Qed.

Lemma elem_of_actual_dups names n :
  n ∈ actual_dups names ↔ n ∈ duplicate_candidates ∧ 1 < occurrences n names.
Proof.
  unfold actual_dups. rewrite elem_of_filter, Counter_occurrences. tauto.
Qed.

Lemma first_occurrence_elem n names i : first_occurrence n names i → n ∈ names.
Proof. intros [Hi _]. by eapply list_elem_of_lookup_2. Qed.

Lemma first_occurrence_inj n names i j :
  first_occurrence n names i → first_occurrence n names j → i = j.
Proof.
  intros [Hi Hbefore_i] [Hj Hbefore_j].
  destruct (Nat.lt_trichotomy i j) as [?|[?|?]]; [|done|].
  - by destruct (Hbefore_j i).
  - by destruct (Hbefore_i j).
Qed.

Lemma first_occurrence_snoc n pre x i :
  first_occurrence n (pre ++ [x]) i
  ↔ first_occurrence n pre i ∨ ((n ∉ pre) ∧ x = n ∧ i = length pre).
Proof.
  unfold first_occurrence. split.
  - intros [Hi Hbefore]. destruct (decide (i < length pre)) as [Hlt|Hge].
    + left. rewrite lookup_app_l in Hi by done. split; [done|].
      intros j Hj. specialize (Hbefore j Hj). by rewrite lookup_app_l in Hbefore by lia.
    + right. rewrite lookup_app_r in Hi by lia.
      destruct (i - length pre) as [|k] eqn:Hk; [|done].
      injection Hi as ->. assert (i = length pre) as -> by lia.
      split; [|done]. intros [j Hj]%list_elem_of_lookup_1.
      pose proof (lookup_lt_Some _ _ _ Hj) as Hlt.
      apply (Hbefore j Hlt). by rewrite lookup_app_l.
  - intros [[Hi Hbefore]|(Hnot & -> & ->)].
    + pose proof (lookup_lt_Some _ _ _ Hi) as Hlt.
      rewrite lookup_app_l by done. split; [done|].
      intros j Hj. rewrite lookup_app_l by lia. by apply Hbefore.
    + split; [by rewrite list_lookup_middle|].
      intros j Hj. rewrite lookup_app_l by done.
      intros Hin. apply Hnot. by eapply list_elem_of_lookup_2.
Qed.

Lemma first_occurrence_exists n names : n ∈ names → ∃ i, first_occurrence n names i.
Proof.
  induction names as [|x pre IH] using rev_ind; [by rewrite elem_of_nil|].
  intros Hin. destruct (decide (n ∈ pre)) as [Hpre|Hpre].
  - destruct (IH Hpre) as [i Hi]. exists i. rewrite first_occurrence_snoc. by left.
  - exists (length pre). rewrite first_occurrence_snoc. right.
    set_solver.
Qed.

Lemma enumerate_from_app {A} k (l1 l2 : list A) :
  enumerate_from k (l1 ++ l2)
  = (enumerate_from k l1 ++ enumerate_from (k + length l1) l2)%list.
Proof.
  revert k. induction l1 as [|a l1 IH]; intros k; simpl.
  - by rewrite Nat.add_0_r.
  - rewrite IH. do 3 f_equal. lia.
Qed.

(** What the loop of lines 78-83 holds after the names [names]: [seen]
    maps each duplicated name met so far to its first index, and
    [skip_indices] holds the first index of those met at least twice. *)
Lemma mark_loop_spec (dups : gset string) names :
  (∀ n i, (mark_loop dups names).1 !! n = Some i
          ↔ n ∈ dups ∧ first_occurrence n names i) ∧
  (∀ i, i ∈ (mark_loop dups names).2
        ↔ ∃ n, n ∈ dups ∧ first_occurrence n names i ∧ 1 < occurrences n names).
Proof.
  induction names as [|x pre [IHseen IHskip]] using rev_ind.
  { split; [intros n i|intros i]; simpl.
    - rewrite lookup_empty. split; [done|]. by intros [_ [? _]].
    - rewrite elem_of_empty. split; [done|]. by intros (n & _ & [? _] & _). }
  unfold mark_loop, enumerate in *.
  rewrite enumerate_from_app, foldl_app; simpl.
  destruct (foldl (mark_first dups) (∅, ∅) (enumerate_from 0 pre))
    as [seen skip]; simpl in *.
  assert (∀ n, n ≠ x → ∀ i,
    first_occurrence n (pre ++ [x]) i ↔ first_occurrence n pre i) as Hother.
  { intros n Hn i. rewrite first_occurrence_snoc. naive_solver. }
  assert (∀ n, n ≠ x → occurrences n (pre ++ [x]) = occurrences n pre) as Hocc.
  { intros n Hn. rewrite occurrences_snoc. case_decide; [congruence|lia]. }
  case_decide as Hdup; simpl.
  - destruct (seen !! x) as [first|] eqn:Hseen; simpl.
    + (* a later occurrence of a duplicated name *)
      apply IHseen in Hseen as [_ Hfirst].
      pose proof (first_occurrence_elem _ _ _ Hfirst) as Hin.
      assert (∀ i, first_occurrence x (pre ++ [x]) i ↔ first_occurrence x pre i)
        as Hsame.
      { intros i. rewrite first_occurrence_snoc. naive_solver. }
      split.
      * intros n i. rewrite IHseen. destruct (decide (n = x)) as [->|Hn].
        -- by rewrite Hsame.
        -- by rewrite Hother.
      * intros i. rewrite elem_of_union, elem_of_singleton, IHskip. split.
        -- intros [->|(n & ? & Hn & ?)].
           ++ exists x. rewrite Hsame, occurrences_snoc.
              apply occurrences_pos in Hin. case_decide; [|done].
              split_and!; [done..|lia].
           ++ exists n. destruct (decide (n = x)) as [->|Hne].
              ** rewrite Hsame, occurrences_snoc. split_and!; [done..|lia].
              ** by rewrite Hother, Hocc.
        -- intros (n & ? & Hn & Hcount). destruct (decide (n = x)) as [->|Hne].
           ++ left. apply Hsame in Hn. by eapply first_occurrence_inj.
           ++ right. exists n. rewrite Hother, Hocc in *; done.
    + (* the first occurrence of a duplicated name *)
      assert (x ∉ pre) as Hnew.
      { intros [i Hi]%first_occurrence_exists.
        assert (seen !! x = Some i) as ? by by apply IHseen. congruence. }
      split.
      * intros n i. destruct (decide (n = x)) as [->|Hn].
        -- rewrite lookup_insert_eq, first_occurrence_snoc. split.
           ++ intros [= <-]. split; [done|]. right. done.
           ++ intros [_ [Hold|(_ & _ & ->)]]; [|done].
              by apply first_occurrence_elem in Hold.
        -- rewrite lookup_insert_ne by done. by rewrite IHseen, Hother.
      * intros i. rewrite IHskip. split.
        -- intros (n & ? & Hn & ?). exists n.
           assert (n ≠ x) as Hne.
           { intros ->. by apply first_occurrence_elem in Hn. }
           by rewrite Hother, Hocc.
        -- intros (n & ? & Hn & Hcount). exists n.
           destruct (decide (n = x)) as [->|Hne].
           ++ rewrite occurrences_snoc, occurrences_zero in Hcount by done.
              case_decide; lia.
           ++ rewrite Hother, Hocc in *; done.
  - (* a name that is not duplicated *)
    split.
    + intros n i. rewrite IHseen. split; intros [? Hn]; split; try done.
      * apply Hother; [congruence|done].
      * apply Hother in Hn; [done|congruence].
    + intros i. rewrite IHskip.
      split; intros (n & ? & Hn & Hcount); exists n;
        (assert (n ≠ x) as Hne by congruence);
        rewrite Hother, Hocc in *; done.
Qed.

(** The drop set, characterised. *)
Lemma elem_of_skip_indices names i :
  i ∈ skip_indices names
  ↔ ∃ n, n ∈ duplicate_candidates ∧ 1 < occurrences n names
         ∧ first_occurrence n names i.
Proof.
  unfold skip_indices.
  destruct (mark_loop_spec (actual_dups names) names) as [_ ->].
  setoid_rewrite elem_of_actual_dups. naive_solver.
Qed.

(** *** The survivors *)

Lemma elem_of_enumerate_from {A} k (l : list A) i a :
  (i, a) ∈ enumerate_from k l ↔ k ≤ i ∧ l !! (i - k) = Some a.
Proof.
  revert k. induction l as [|b l IH]; intros k; simpl.
  { rewrite elem_of_nil. naive_solver. }
  rewrite elem_of_cons, IH. split.
  - intros [[= -> ->]|[Hle Hi]].
    + by rewrite Nat.sub_diag.
    + split; [lia|]. by replace (i - k) with (S (i - S k)) by lia.
  - intros [Hle Hi]. destruct (i - k) as [|d] eqn:Hd; simpl in Hi.
    + left. f_equal; [lia|congruence].
    + right. split; [lia|]. by replace (i - S k) with d by lia.
Qed.

Lemma elem_of_enumerate {A} (l : list A) i a :
  (i, a) ∈ enumerate l ↔ l !! i = Some a.
Proof.
  unfold enumerate. rewrite elem_of_enumerate_from, Nat.sub_0_r.
  split; [by intros [_ ?]|]. split; [lia|done].
Qed.

Lemma elem_of_kept {A} (skip : gset nat) (l : list A) i a :
  (i, a) ∈ kept skip l ↔ (i ∉ skip) ∧ l !! i = Some a.
Proof. unfold kept. by rewrite list_elem_of_filter, elem_of_enumerate. Qed.


Lemma enumerate_from_snd {A} k (l : list A) : (enumerate_from k l).*2 = l.
Proof. revert k. induction l; intros k; simpl; by f_equal. Qed.

(** A filter that looks at the index only, read on the indices. *)
Lemma filter_enumerate_fst {A} (Q : nat → Prop) `{!∀ i, Decision (Q i)} k (l : list A) :
  (filter (λ ix, Q ix.1) (enumerate_from k l)).*1 = filter Q (seq k (length l)).
Proof.
  revert k. induction l as [|a l IH]; intros k; simpl; [done|].
  rewrite !filter_cons; simpl. case_decide; simpl; by rewrite IH.
Qed.

Lemma filter_none {A} (P : A → Prop) `{!∀ x, Decision (P x)} (l : list A) :
  (∀ x, x ∈ l → ¬ P x) → filter P l = [].
Proof.
  induction l as [|x l IH]; [done|]. intros Hnone.
  rewrite filter_cons_False by (apply Hnone; left).
  apply IH. intros y Hy. apply Hnone. by right.
Qed.

Lemma filter_all {A} (P : A → Prop) `{!∀ x, Decision (P x)} (l : list A) :
  (∀ x, x ∈ l → P x) → filter P l = l.
Proof.
  induction l as [|x l IH]; [done|]. intros Hall.
  rewrite filter_cons_True by (apply Hall; left).
  f_equal. apply IH. intros y Hy. apply Hall. by right.
Qed.




(** Of the occurrences of a name, those at a skipped index are lost and
    the others survive. *)
Lemma occurrences_kept (skip : gset nat) n k names :
  occurrences n (filter (λ ix, ix.1 ∉ skip) (enumerate_from k names)).*2
  + length (filter (λ ix, ix.2 = n ∧ ix.1 ∈ skip) (enumerate_from k names))
  = occurrences n names.
Proof.
  revert k. induction names as [|x names IH]; intros k; simpl; [done|].
  rewrite !filter_cons, occurrences_cons, <-(IH (S k)); simpl.
  destruct (decide (k ∉ skip)) as [Hk|Hk]; simpl.
  - rewrite occurrences_cons. repeat case_decide; simpl; first [lia|tauto].
  - assert (k ∈ skip) by (by destruct (decide (k ∈ skip))).
    repeat case_decide; simpl; first [lia|tauto].
Qed.


(** An occurrence of [n] is dropped exactly when it is the first one and
    [n] is a candidate that occurs more than once. *)
Lemma skipped_occurrence names n i :
  names !! i = Some n →
  i ∈ skip_indices names
  ↔ n ∈ duplicate_candidates ∧ 1 < occurrences n names ∧ first_occurrence n names i.
Proof.
  intros Hi. rewrite elem_of_skip_indices. split; [|by exists n].
  intros (n' & ? & ? & Hfirst). destruct Hfirst as [Hi' ?] eqn:E.
  assert (n' = n) as -> by congruence. done.
Qed.

Lemma surviving_occurrences_le names n :
  occurrences n (surviving_names names) ≤ occurrences n names.
Proof.
  unfold surviving_names, kept, enumerate.
  rewrite <-(occurrences_kept (skip_indices names) n 0 names). lia.
Qed.

(** A candidate that occurs more than once loses one occurrence. *)
Lemma surviving_occurrences_dup names n :
  n ∈ duplicate_candidates → 1 < occurrences n names →
  occurrences n (surviving_names names) = occurrences n names - 1.
Proof.
  intros Hcand Hcount.
  assert (n ∈ names) as Hin by (apply occurrences_pos; lia).
  destruct (first_occurrence_exists _ _ Hin) as [i0 Hfirst].
  pose proof Hfirst as [Hi0 Hbefore].
  pose proof (lookup_lt_Some _ _ _ Hi0) as Hlt.
  unfold surviving_names, kept, enumerate.
  pose proof (occurrences_kept (skip_indices names) n 0 names) as Hsum.
  assert (length (filter (λ ix : nat * string, ix.2 = n ∧ ix.1 ∈ skip_indices names)
                    (enumerate_from 0 names)) = 1) as Hone; [|lia].
  clear Hsum.
  assert (∀ i, names !! i = Some n → i ∈ skip_indices names ↔ i = i0) as Hskip.
  { intros i Hi. rewrite (skipped_occurrence _ n) by done. split.
    - intros (_ & _ & Hi'). by eapply first_occurrence_inj.
    - by intros ->. }
  revert Hskip. generalize (skip_indices names). intros skip Hskip.
  rewrite <-(take_drop_middle names i0 n) by done.
  rewrite enumerate_from_app, length_take_le by lia; simpl.
  rewrite filter_app, filter_cons_True; simpl.
  2:{ split; [done|]. by apply Hskip. }
  rewrite !filter_none; [done| |].
  - intros [i x]. rewrite elem_of_enumerate_from; simpl.
    intros [Hle Hx] [-> Hi]. apply Hskip in Hi; [lia|].
    rewrite lookup_drop in Hx. rewrite <-Hx. f_equal. lia.
  - intros [i x]. rewrite elem_of_enumerate_from, Nat.sub_0_r; simpl.
    intros [_ Hx] [-> Hi].
    pose proof (lookup_lt_Some _ _ _ Hx) as Hi_lt.
    rewrite length_take in Hi_lt. rewrite lookup_take_lt in Hx by lia.
    apply Hskip in Hi; [lia|done].
Qed.

(** With an empty drop set every name survives. *)
Lemma surviving_names_id names :
  skip_indices names = ∅ → surviving_names names = names.
Proof.
  intros Hempty. unfold surviving_names, kept, enumerate. rewrite Hempty.
  rewrite filter_all by (intros; apply not_elem_of_empty).
  apply enumerate_from_snd.
Qed.


Lemma actual_dups_empty names :
  actual_dups names = ∅
  ↔ ∀ n, n ∈ duplicate_candidates → occurrences n names ≤ 1.
Proof.
  split.
  - intros Hempty n Hn. destruct (decide (occurrences n names ≤ 1)); [done|].
    assert (n ∈ actual_dups names) as Hin
      by (apply elem_of_actual_dups; split; [done|lia]).
    by rewrite Hempty in Hin.
  - intros Hcount. apply set_eq. intros n.
    rewrite elem_of_actual_dups, elem_of_empty.
    split; [|done]. intros [Hn ?]. apply Hcount in Hn. lia.
Qed.

End Policy.

(** ** The orchestration in [main] *)

Section Orchestration.

Implicit Types (w : world) (members : list member) (skip : gset nat).

(** The loop when every file can be made. *)
Lemma stage_loop_ok tmpdir skip (ims : list (nat * member)) extracted w :
  let survivors := filter (λ im, im.1 ∉ skip) ims in
  Forall (stageable tmpdir) survivors →
  stage_loop tmpdir skip (extracted, w) ims
  = (Ok (extracted ++ (staged_path tmpdir <$> survivors))%list,
     World (staged_fs tmpdir survivors (fs w)) (stdout w)
       (trace w ++ (OpenWrite ∘ staged_path tmpdir <$> survivors))%list).
Proof.
  revert extracted w. induction ims as [|[i [name data]] ims IH];
    intros extracted w; simpl.
  { intros _. rewrite !app_nil_r. by destruct w. }
  rewrite filter_cons; simpl. destruct (decide (i ∈ skip)) as [Hi|Hi].
  - rewrite decide_False by tauto. apply IH.
  - rewrite decide_True by done. intros [Hnow Hlater]%Forall_cons.
    unfold stageable in Hnow; simpl in Hnow. rewrite Hnow.
    rewrite IH by done; simpl. by rewrite <-!app_assoc.
Qed.

(** The loop when a file cannot be made: the survivors before it are
    staged, its [open] raises, and the loop is left. *)
Lemma stage_loop_failure tmpdir skip (ims : list (nat * member)) extracted w
    (before : list (nat * member)) (im : nat * member) (after : list (nat * member)) e :
  filter (λ im, im.1 ∉ skip) ims = (before ++ im :: after)%list →
  Forall (stageable tmpdir) before →
  open_wb_error tmpdir (out_name im.1 im.2.1) = Some e →
  stage_loop tmpdir skip (extracted, w) ims
  = (Raise e,
     World (staged_fs tmpdir before (fs w)) (stdout w)
       (trace w ++ (OpenWrite ∘ staged_path tmpdir <$> before)
        ++ [OpenWrite (staged_path tmpdir im)])%list).
Proof.
  revert extracted w before.
  induction ims as [|[i [name data]] ims IH]; intros extracted w before; simpl.
  { rewrite filter_nil. by destruct before. }
  rewrite filter_cons; simpl. destruct (decide (i ∈ skip)) as [Hi|Hi].
  - rewrite decide_False by tauto. apply IH.
  - rewrite decide_True by done. destruct before as [|x before]; simpl.
    + intros [= <- _] _ Herr. simpl in Herr. rewrite Herr. by destruct w.
    + intros [= <- Hrest] [Hnow Hbefore]%Forall_cons Herr.
      unfold stageable in Hnow; simpl in Hnow. rewrite Hnow.
      rewrite (IH _ _ before) by done. simpl. by rewrite <-!app_assoc.
Qed.

Lemma stage_spec tmpdir skip members w :
  let survivors := kept skip members in
  Forall (stageable tmpdir) survivors →
  stage tmpdir skip members w
  = (Ok (staged_path tmpdir <$> survivors),
     World (staged_fs tmpdir survivors (fs w)) (stdout w)
       (trace w ++ (OpenWrite ∘ staged_path tmpdir <$> survivors))%list).
Proof. intros survivors Hall. unfold stage. by rewrite stage_loop_ok. Qed.

Lemma stage_failure tmpdir skip members w
    (before : list (nat * member)) (im : nat * member) (after : list (nat * member)) e :
  kept skip members = (before ++ im :: after)%list →
  Forall (stageable tmpdir) before →
  open_wb_error tmpdir (out_name im.1 im.2.1) = Some e →
  stage tmpdir skip members w
  = (Raise e,
     World (staged_fs tmpdir before (fs w)) (stdout w)
       (trace w ++ (OpenWrite ∘ staged_path tmpdir <$> before)
        ++ [OpenWrite (staged_path tmpdir im)])%list).
Proof. intros Hkept Hbefore Herr. unfold stage. by erewrite stage_loop_failure. Qed.

(** Every survivor can be staged, or there is a first one that cannot. *)
Lemma first_unstageable tmpdir (ims : list (nat * member)) :
  Forall (stageable tmpdir) ims
  ∨ ∃ before im after e,
      ims = (before ++ im :: after)%list
      ∧ Forall (stageable tmpdir) before
      ∧ open_wb_error tmpdir (out_name im.1 im.2.1) = Some e.
Proof.
  induction ims as [|im ims IH]; [by left|].
  destruct (open_wb_error tmpdir (out_name im.1 im.2.1)) as [e|] eqn:Herr.
  { right. by exists [], im, ims, e. }
  destruct IH as [Hall|(before & im' & after & e & -> & Hbefore & Herr')].
  - left. by constructor.
  - right. exists (im :: before), im', after, e. split_and!; [done| |done].
    by constructor.
Qed.

Lemma report_fs skip (names : list string) w : fs (report skip names w) = fs w.
Proof.
  unfold report. generalize (merge_sort le (elements skip)). intros idxs.
  assert (∀ w0, fs (foldl (λ w idx,
            print ("  [" ++ Py.str_of_nat idx ++ "] " ++ names !!! idx) w) w0 idxs)
          = fs w0) as ->; [|done].
  induction idxs as [|idx idxs IH]; intros w0; simpl; [done|by rewrite IH].
Qed.

Lemma report_trace skip (names : list string) w :
  trace (report skip names w) = trace w.
Proof.
  unfold report. generalize (merge_sort le (elements skip)). intros idxs.
  assert (∀ w0, trace (foldl (λ w idx,
            print ("  [" ++ Py.str_of_nat idx ++ "] " ++ names !!! idx) w) w0 idxs)
          = trace w0) as ->; [|done].
  induction idxs as [|idx idxs IH]; intros w0; simpl; [done|by rewrite IH].
Qed.

(** The file names handed to [ar] begin with the five digits of the index,
    so none of them is a candidate name. *)
Lemma format_05d_head (i : nat) :
  ∃ c rest, Py.format_05d i = String c rest ∧ Py.is_digit c = true.
Proof.
  unfold Py.format_05d, Py.str_of_nat.
  destruct (Nat.to_uint i) as [|u|u|u|u|u|u|u|u|u|u]; simpl;
    [by eexists _, _|..];
    destruct (4 - String.length _); cbv [String.append Py.zeros]; by eexists _, _.
Qed.

Lemma out_name_not_candidate (i : nat) (name : string) :
  out_name i name ∉ duplicate_candidates.
Proof.
  destruct (format_05d_head i) as (c & rest & Hhead & Hdigit).
  unfold out_name. rewrite Hhead. simpl. intros Hin.
  unfold duplicate_candidates in Hin.
  rewrite !elem_of_union, !elem_of_singleton in Hin.
  destruct_or!; injection Hin as -> _; discriminate Hdigit.
Qed.

Lemma staged_names_no_candidate skip members :
  actual_dups ((λ im : nat * member, out_name im.1 im.2.1) <$> kept skip members) = ∅.
Proof.
  apply actual_dups_empty. intros n Hn. rewrite occurrences_zero; [lia|].
  intros (im & -> & _)%list_elem_of_fmap. by apply out_name_not_candidate in Hn.
Qed.



Variable run : list string → gmap string (list byte) → gmap string (list byte) * Z.
Variable mkdtemp : gmap string (list byte) → string.

(** [repack], end to end: the rebuild runs on the file system that holds
    the staged survivors and no longer holds [output_path]. *)
Lemma repack_spec output_path skip members w :
  let tmpdir := mkdtemp (fs w) in
  let survivors := kept skip members in
  let cmd := (["ar"; "rcs"; output_path] ++ (staged_path tmpdir <$> survivors))%list in
  let before := delete output_path (staged_fs tmpdir survivors (fs w)) in
  Forall (stageable tmpdir) survivors →
  ∃ w',
    repack run mkdtemp output_path skip members w
    = (if decide ((run cmd before).2 = 0%Z) then Exit 0
       else Uncaught (CalledProcessError (run cmd before).2), w')
    ∧ fs w' = rmtree tmpdir (run cmd before).1
    ∧ stdout w'
      = (stdout w
         ++ [("Repacking " ++ Py.str_of_nat (length survivors)
              ++ " objects into " ++ output_path)%string]
         ++ if decide ((run cmd before).2 = 0%Z) then ["Done!"] else [])%list
    ∧ trace w'
      = (trace w ++ [MkDTemp tmpdir]
         ++ (OpenWrite ∘ staged_path tmpdir <$> survivors)
         ++ [PathExists output_path]
         ++ (if decide (is_Some (staged_fs tmpdir survivors (fs w) !! output_path))
             then [Remove output_path] else [])
         ++ [Spawn cmd; RmTree tmpdir])%list.
Proof.
  intros tmpdir survivors cmd before Hall. unfold repack.
  cbn [fs sys]. fold tmpdir. rewrite stage_spec by done.
  fold survivors. cbn [fst snd fs stdout trace sys print set_fs].
  rewrite length_fmap.
  assert (before =
    fs (if decide (is_Some (staged_fs tmpdir survivors (fs w) !! output_path))
        then set_fs (delete output_path (staged_fs tmpdir survivors (fs w)))
               (World (staged_fs tmpdir survivors (fs w)) [] [])
        else World (staged_fs tmpdir survivors (fs w)) [] [])) as Hbefore.
  { case_decide as Hex; [done|]. simpl. unfold before. rewrite delete_id; [done|].
    by apply eq_None_not_Some. }
  unfold subprocess_run.
  case_decide as Hex; cbn [fst snd fs stdout trace sys print set_fs] in *;
    fold cmd; rewrite <-Hbefore;
    destruct (run cmd before) as [after returncode];
    cbn [fst snd fs stdout trace sys print set_fs];
    case_decide; eexists; (split; [reflexivity|]);
    cbn [fst snd fs stdout trace sys print set_fs];
    rewrite <-?app_assoc; simpl; done.
Qed.

(** [repack] when a file cannot be made: the run ends in the exception of
    [open], after the temporary directory is removed. *)
Lemma repack_failure output_path skip members w
    (before : list (nat * member)) (im : nat * member) (after : list (nat * member)) e :
  let tmpdir := mkdtemp (fs w) in
  kept skip members = (before ++ im :: after)%list →
  Forall (stageable tmpdir) before →
  open_wb_error tmpdir (out_name im.1 im.2.1) = Some e →
  repack run mkdtemp output_path skip members w
  = (Uncaught e,
     World (rmtree tmpdir (staged_fs tmpdir before (fs w))) (stdout w)
       (trace w ++ [MkDTemp tmpdir] ++ (OpenWrite ∘ staged_path tmpdir <$> before)
        ++ [OpenWrite (staged_path tmpdir im); RmTree tmpdir])%list).
Proof.
  intros tmpdir Hkept Hbefore Herr. unfold repack. cbn [fs sys]. fold tmpdir.
  rewrite (stage_failure _ _ _ _ before im after e) by done.
  cbn [fst snd fs stdout trace sys print set_fs].
  f_equal. unfold set_fs, sys; simpl. f_equal. by rewrite <-!app_assoc.
Qed.

(** The fast path of lines 70-73. *)
Lemma main_fast_path argv0 input_path output_path w content members :
  fs w !! input_path = Some content →
  parse_ar content = Some (Ok members) →
  actual_dups members.*1 = ∅ →
  main run mkdtemp [argv0; input_path; output_path] w
  = Some (Exit 0,
          World (run ["cp"; input_path; output_path] (fs w)).1
            (stdout w ++ ["No duplicate ggml objects found, copying as-is"])%list
            (trace w ++ [OpenRead input_path; Spawn ["cp"; input_path; output_path]])%list).
Proof.
  intros Hfile Hparse Hdups. unfold main; simpl.
  rewrite Hfile, Hparse. rewrite decide_True by done.
  unfold subprocess_run; simpl.
  destruct (run _ (fs w)) as [after returncode]; simpl.
  unfold set_fs, sys, print; simpl. by rewrite <-app_assoc.
Qed.

(** The slow path of lines 75-109. *)
Lemma main_slow_path argv0 input_path output_path w content members :
  fs w !! input_path = Some content →
  parse_ar content = Some (Ok members) →
  actual_dups members.*1 ≠ ∅ →
  main run mkdtemp [argv0; input_path; output_path] w
  = Some (repack run mkdtemp output_path (skip_indices members.*1) members
            (report (skip_indices members.*1) members.*1 (sys (OpenRead input_path) w))).
Proof.
  intros Hfile Hparse Hdups. unfold main; simpl.
  rewrite Hfile, Hparse. by rewrite decide_False by done.
Qed.

End Orchestration.

(** * Scenarios of the specification *)

(** The built-ins on the inputs that tell them apart. *)
Example py_builtins :
  Py.int " -1_0 " = Ok (-10)%Z
  ∧ Py.int (String (ascii_of_N 28) "3") = Raise ValueError
  ∧ Py.strip (String (ascii_of_N 28) "3") = "3"
  ∧ Py.int "1__0" = Raise ValueError
  ∧ Py.int "0_7" = Ok 7%Z
  ∧ Py.int "- 1" = Raise ValueError
  ∧ Py.rstrip "/" "ab///" = "ab"
  ∧ Py.slice_to (-2) (bytes_of "abcdef") = bytes_of "abcd"
  ∧ Py.slice_from (-2) (bytes_of "abcdef") = bytes_of "ef"
  ∧ Py.slice_from 10 (bytes_of "abcdef") = []
  ∧ Py.read_size (-2) (Py.File (bytes_of "0123456789") 3) = Raise ValueError
  ∧ Py.read (-1) (Py.File (bytes_of "0123456789") 3)
    = (bytes_of "3456789", Py.File (bytes_of "0123456789") 10)
  ∧ Py.read 60 (Py.File (bytes_of "0123456789") 9)
    = (bytes_of "9", Py.File (bytes_of "0123456789") 10)
  ∧ Py.format_05d 3 = "00003".
Proof. split_and!; vm_compute; reflexivity. Qed.

Example parse_scenario1 : parse_ar archive_scenario1 = Some (Ok members_scenario1).
Proof. vm_compute. reflexivity. Qed.

Example parse_scenario2 : parse_ar archive_scenario2 = Some (Ok members_scenario2).
Proof. vm_compute. reflexivity. Qed.

(** Scenario 1: index 1 is dropped, index 3 is kept. *)
Example scenario1 :
  skip_indices members_scenario1.*1 = {[1]}
  ∧ surviving_names members_scenario1.*1 = ["a.o"; "b.o"; "ggml.c.o"].
Proof. split; vm_compute; reflexivity. Qed.

(** Scenario 3: of three copies only the one at index 0 is dropped. *)
Example scenario3 :
  skip_indices names_scenario3 = {[0]}
  ∧ surviving_names names_scenario3 = ["a.o"; "ggml.c.o"; "b.o"; "c.o"; "ggml.c.o"].
Proof. split; vm_compute; reflexivity. Qed.

(** Scenario 4: the extended name form resolves to the same name as the
    short form. *)
Example scenario4 :
  parse_ar (ar_magic ++ ar_member (bytes_of "#1/16")
              (bytes_of "ggml-alloc.c.o" ++ [x00; x00] ++ bytes_of "DATA"))%list
  = Some (Ok [("ggml-alloc.c.o", bytes_of "DATA")])
  ∧ parse_ar (ar_magic ++ ar_member (bytes_of "ggml-alloc.c.o/") (bytes_of "DATA"))%list
    = Some (Ok [("ggml-alloc.c.o", bytes_of "DATA")]).
Proof. split; vm_compute; reflexivity. Qed.

(** The symbol table and the string tables are read and not yielded. *)
Example special_members_are_skipped :
  parse_ar (ar_magic ++ ar_member (bytes_of "__.SYMDEF SORTED") (bytes_of "index")
            ++ ar_member (bytes_of "/") (bytes_of "gnu index")
            ++ ar_member (bytes_of "//") (bytes_of "long names")
            ++ ar_member (bytes_of "a.o/") (bytes_of "AAA"))%list
  = Some (Ok [("a.o", bytes_of "AAA")]).
Proof. vm_compute. reflexivity. Qed.

(** Scenario 1, staged: the survivors under their index and name. *)
Example stage_scenario1 :
  (stage "/tmp/t" (skip_indices members_scenario1.*1) members_scenario1
     (world_with archive_scenario1 None)).1
  = Ok ["/tmp/t/00000_a.o"; "/tmp/t/00002_b.o"; "/tmp/t/00003_ggml.c.o"].
Proof. vm_compute. reflexivity. Qed.

(** The names [open] refuses below the temporary directory: a NUL, a
    directory that is not there, a closing slash, a name of more than 255
    bytes; and a name it takes. *)
Example open_wb_refusals :
  open_wb_error "/tmp/t" (out_name 1 (String zero "x.o")) = Some ValueError
  ∧ open_wb_error "/tmp/t" (out_name 1 "sub/x.o")
    = Some (FileNotFoundError "/tmp/t/00001_sub/x.o")
  ∧ open_wb_error "/tmp/t" (out_name 1 "/18") = Some (FileNotFoundError "/tmp/t/00001_/18")
  ∧ open_wb_error "/tmp/t" (out_name 1 "x.o/") = Some (IsADirectoryError "/tmp/t/00001_x.o/")
  ∧ open_wb_error "/tmp/t" (out_name 1 (Py.zeros 250))
    = Some (OSError 36 ("/tmp/t/" ++ out_name 1 (Py.zeros 250)))
  ∧ open_wb_error "/tmp/t" (out_name 1 (Py.zeros 249)) = None
  ∧ open_wb_error "/tmp/t" (out_name 1 "my file.o") = None.
Proof. split_and!; vm_compute; reflexivity. Qed.

Example parse_gnu_long_name : parse_ar archive_gnu_long_name = Some (Ok members_gnu_long_name).
Proof. vm_compute. reflexivity. Qed.


(** Scenario 5: a wrong magic aborts the run before any output. *)
Example scenario5 :
  main cp_only tmp ["dedup-archive.py"; "in.a"; "out.a"]
    (world_with (bytes_of "!<arch>? and more") None)
  = Some (Uncaught (AssertionError (bytes_of "!<arch>?")),
          World {["in.a" := bytes_of "!<arch>? and more"]} [] [OpenRead "in.a"]).
Proof. vm_compute. reflexivity. Qed.

(** * The claims *)


(** ** C1: a second run on the output of the first *)



(** ** C2: the drop set, exactly *)

(** C2: the drop set holds exactly the index of the first occurrence of
    each candidate name that occurs more than once.  So a candidate name
    that occurs [k > 1] times loses its first occurrence and keeps the
    [k - 1] later ones; an occurrence of a candidate name that occurs at
    most once is not dropped; and no occurrence of a name outside the
    candidate set is dropped, however often the name repeats. *)
Theorem skip_indices_exact (names : list string) :
  (∀ i, i ∈ skip_indices names
        ↔ ∃ n, n ∈ duplicate_candidates ∧ 1 < occurrences n names
               ∧ first_occurrence n names i)
  ∧ (∀ n k, n ∈ duplicate_candidates → occurrences n names = k → 1 < k →
       occurrences n (surviving_names names) = k - 1
       ∧ ∀ i, names !! i = Some n →
              i ∈ skip_indices names ↔ first_occurrence n names i)
  ∧ (∀ n i, n ∈ duplicate_candidates → occurrences n names ≤ 1 →
       names !! i = Some n → i ∉ skip_indices names)
  ∧ (∀ n i, n ∉ duplicate_candidates →
       names !! i = Some n → i ∉ skip_indices names).
Proof.
  split_and!.
  - apply elem_of_skip_indices.
  - intros n k Hn <- Hk. split; [by apply surviving_occurrences_dup|].
    intros i Hi. rewrite (skipped_occurrence names n i Hi). tauto.
  - intros n i _ Hcount Hi. rewrite (skipped_occurrence names n i Hi). lia.
  - intros n i Hn Hi. rewrite (skipped_occurrence names n i Hi). tauto.
Qed.

(** ** C7: count and order of the survivors *)




(** ** C8: special members *)

(** C8: the reader always returns, and no record it yields has a name that
    begins with [__.SYMDEF], is [/] or [//], or is empty.  A record with
    such a name is consumed: the loop goes on behind its header and
    payload and yields what it would yield from there. *)
Theorem reader_filters_special_members (content : list byte) :
  (∃ r, parse_ar content = Some r
        ∧ ∀ members, r = Ok members → Forall (λ m, ¬ special_name m.1) members)
  ∧ (∀ fuel f header f1 name_field size data f2 member_name object_data,
       Py.read 60 (align f) = (header, f1) →
       ¬ length header < 60 →
       header_fields header = Ok (name_field, size) →
       Py.read_size size f1 = Ok (data, f2) →
       resolve_member name_field data = Ok (member_name, object_data) →
       special_name member_name →
       parse_members (S fuel) f = parse_members fuel f2
       ∧ Py.f_pos f2 = Py.f_pos (align f) + 60 + length data).
Proof.
  split.
  - destruct (parse_ar_total content) as [r Hr]. exists r. split; [done|].
    intros members ->. unfold parse_ar in Hr.
    destruct (Py.read 8 _) as [magic f]. case_decide; [|done].
    by eapply parse_members_not_special.
  - intros fuel f header f1 name_field size data f2 member_name object_data
      Hheader Hlen Hfields Hdata Hmember Hspecial.
    split.
    + rewrite parse_members_step, Hheader. rewrite decide_False by done.
      rewrite Hfields, Hdata, Hmember.
      apply is_special_spec in Hspecial. by rewrite Hspecial.
    + pose proof (read_pos 60 (align f)) as Hp1.
      pose proof (read_at_most 60 (align f)) as Hmost.
      pose proof (read_pos size f1) as Hp2.
      apply read_size_Ok in Hdata.
      rewrite Hheader in Hp1, Hmost. rewrite Hdata in Hp2. simpl in *. lia.
Qed.

(** ** C5: a truncated header *)

(** C5, as stated, fails: a header cut off after 30 bytes raises nothing.
    The reader yields the member before it and stops, and the run goes on
    to the copy and ends with status 0, the output written. *)
Lemma truncated_header_is_not_fatal :
  parse_ar archive_truncated = Some (Ok [("a.o", bytes_of "AAAA")])
  ∧ main cp_only tmp ["dedup-archive.py"; "in.a"; "out.a"]
      (world_with archive_truncated None)
    = Some (Exit 0,
            World (<["out.a" := archive_truncated]> {["in.a" := archive_truncated]})
              ["No duplicate ggml objects found, copying as-is"]
              [OpenRead "in.a"; Spawn ["cp"; "in.a"; "out.a"]]).
Proof. split; vm_compute; reflexivity. Qed.

(** C5, amended: when fewer than 60 bytes are left where a header is
    expected, the loop of the reader ends without an error and yields
    nothing more: this is the clean end of the archive.  When that happens
    right behind the magic prefix, the reader yields no member and the run
    takes the copy path and ends with status 0. *)
Theorem truncated_header_ends_archive
    (run : list string → gmap string (list byte) → gmap string (list byte) * Z)
    (mkdtemp : gmap string (list byte) → string)
    (argv0 input_path output_path : string) (w : world) (rest : list byte)
    (fuel : nat) (f : Py.file) :
  remaining (align f) < 60 →
  length rest < 60 →
  fs w !! input_path = Some (ar_magic ++ rest)%list →
  parse_members (S fuel) f = Some (Ok [])
  ∧ parse_ar (ar_magic ++ rest)%list = Some (Ok [])
  ∧ main run mkdtemp [argv0; input_path; output_path] w
    = Some (Exit 0,
            World (run ["cp"; input_path; output_path] (fs w)).1
              (stdout w ++ ["No duplicate ggml objects found, copying as-is"])%list
              (trace w ++ [OpenRead input_path;
                           Spawn ["cp"; input_path; output_path]])%list).
Proof.
  intros Hshort Hrest Hfile. split; [by apply parse_members_short_header|].
  pose proof (parse_ar_short_header rest Hrest) as Hparse. split; [done|].
  by eapply main_fast_path.
Qed.

Lemma truncated_header_ends_archive_witness :
  parse_members 1 (Py.File archive_truncated 72) = Some (Ok [])
  ∧ parse_ar (ar_magic ++ bytes_of "b.o/")%list = Some (Ok [])
  ∧ main cp_only tmp ["dedup-archive.py"; "in.a"; "out.a"]
      (world_with (ar_magic ++ bytes_of "b.o/")%list None)
    = Some (Exit 0,
            World (cp_only ["cp"; "in.a"; "out.a"]
                     (fs (world_with (ar_magic ++ bytes_of "b.o/")%list None))).1
              (stdout (world_with (ar_magic ++ bytes_of "b.o/")%list None)
               ++ ["No duplicate ggml objects found, copying as-is"])%list
              (trace (world_with (ar_magic ++ bytes_of "b.o/")%list None)
               ++ [OpenRead "in.a"; Spawn ["cp"; "in.a"; "out.a"]])%list).
Proof.
  apply (truncated_header_ends_archive cp_only tmp "dedup-archive.py" "in.a" "out.a"
           (world_with (ar_magic ++ bytes_of "b.o/")%list None) (bytes_of "b.o/")
           0 (Py.File archive_truncated 72)).
  - vm_compute. lia.
  - vm_compute. lia.
  - reflexivity.
Defined.

(** ** C4: decoding of member names *)

(** The name bytes that lead the payload of an extended name are decoded
    with [errors="replace"]: for every payload the name resolves. *)
Lemma extended_name_always_resolves (name_field : string) (name_len : Z) (data : list byte) :
  Py.startswith "#1/" name_field = true →
  Py.int (Py.str_drop 3 name_field) = Ok name_len →
  resolve_member name_field data
  = Ok (Py.decode_ascii_replace (Py.rstrip_nul (Py.slice_to name_len data)),
        Py.slice_from name_len data).
Proof. intros Hext Hlen. unfold resolve_member. by rewrite Hext, Hlen. Qed.

(** The 16-byte name field is decoded strictly: one byte above 127 in it
    and the reader raises. *)
Lemma short_name_field_is_strict (header : list byte) :
  forallb Py.is_ascii (take 16 header) = false →
  header_fields header = Raise UnicodeDecodeError.
Proof. intros Hbad. unfold header_fields, Py.decode_ascii. by rewrite Hbad. Qed.

(** C4 (the code departs from the claim): a member named [caf\xe9.o] in
    the 16-byte name field makes the reader raise [UnicodeDecodeError] and
    the run abort, where the claim has the byte replaced; the same name in
    the extended form is decoded with the byte replaced by U+FFFD, as the
    claim says. *)
Theorem short_name_decoding_raises :
  parse_ar archive_latin1_short = Some (Raise UnicodeDecodeError)
  ∧ main cp_only tmp ["dedup-archive.py"; "in.a"; "out.a"]
      (world_with archive_latin1_short None)
    = Some (Uncaught UnicodeDecodeError,
            World {["in.a" := archive_latin1_short]} [] [OpenRead "in.a"])
  ∧ parse_ar archive_latin1_extended
    = Some (Ok [("caf" ++ Py.replacement_character ++ ".o", bytes_of "AAAA")]).
Proof. split_and!; vm_compute; reflexivity. Qed.

(** ** C9: the argument count *)

(** C9: with any number of arguments other than two, [main] prints the
    usage line to the standard output and exits with status 1; the file
    system is as it was and no system call was made. *)
Theorem wrong_arity_prints_usage
    (run : list string → gmap string (list byte) → gmap string (list byte) * Z)
    (mkdtemp : gmap string (list byte) → string)
    (argv0 : string) (args : list string) (w : world) :
  length args ≠ 2 →
  main run mkdtemp (argv0 :: args) w
  = Some (Exit 1,
          World (fs w)
            (stdout w ++ [("Usage: " ++ argv0 ++ " <input.a> <output.a>")%string])%list
            (trace w))
  ∧ exit_status (Exit 1) = 1%Z.
Proof.
  intros Harity. split; [|done].
  destruct args as [|a [|b [|c args]]]; simpl in *; done.
Qed.

Lemma wrong_arity_prints_usage_witness :
  main no_commands tmp ["dedup-archive.py"; "in.a"] (world_with archive_scenario1 None)
  = Some (Exit 1,
          World (fs (world_with archive_scenario1 None))
            (stdout (world_with archive_scenario1 None)
             ++ [("Usage: " ++ "dedup-archive.py" ++ " <input.a> <output.a>")%string])%list
            (trace (world_with archive_scenario1 None)))
  ∧ exit_status (Exit 1) = 1%Z.
Proof.
  apply (wrong_arity_prints_usage no_commands tmp "dedup-archive.py" ["in.a"]).
  simpl. lia.
Defined.

(** ** C10: the status of the copy is not looked at *)

(** C10: on the fast path the run ends with status 0 whatever the copy
    command returns and whatever it leaves on the file system: the return
    code of [cp] is dropped. *)
Theorem fast_path_ignores_copy_status
    (run : list string → gmap string (list byte) → gmap string (list byte) * Z)
    (mkdtemp : gmap string (list byte) → string)
    (argv0 input_path output_path : string) (w : world)
    (content : list byte) (members : list member)
    (after : gmap string (list byte)) (returncode : Z) :
  fs w !! input_path = Some content →
  parse_ar content = Some (Ok members) →
  actual_dups members.*1 = ∅ →
  run ["cp"; input_path; output_path] (fs w) = (after, returncode) →
  ∃ w', main run mkdtemp [argv0; input_path; output_path] w = Some (Exit 0, w')
        ∧ exit_status (Exit 0) = 0%Z
        ∧ fs w' = after.
Proof.
  intros Hfile Hparse Hdups Hrun. eexists. split; [|split; [done|]].
  - by eapply main_fast_path.
  - simpl. by rewrite Hrun.
Qed.

(** The copy fails with status 1 and writes nothing; the run still ends
    with status 0 and there is no output file. *)
Lemma fast_path_ignores_copy_status_witness :
  no_commands ["cp"; "in.a"; "out.a"] (fs (world_with archive_scenario2 None))
  = ({["in.a" := archive_scenario2]}, 1%Z)
  ∧ ∃ w', main no_commands tmp ["dedup-archive.py"; "in.a"; "out.a"]
            (world_with archive_scenario2 None) = Some (Exit 0, w')
          ∧ exit_status (Exit 0) = 0%Z
          ∧ fs w' = {["in.a" := archive_scenario2]}.
Proof.
  split; [reflexivity|].
  apply (fast_path_ignores_copy_status no_commands tmp "dedup-archive.py" "in.a" "out.a"
           (world_with archive_scenario2 None) archive_scenario2 members_scenario2
           {["in.a" := archive_scenario2]} 1%Z).
  - reflexivity.
  - vm_compute. reflexivity.
  - vm_compute. reflexivity.
  - reflexivity.
Defined.

(** ** C6: the fast path copies the input *)



(** ** C3: a failing rebuild *)

(** C3, as stated, fails: an output file is there before the run, [ar]
    fails with status 1 and writes nothing, and after the run the output
    file is gone.  The trace shows the removal before [ar] is started. *)
Lemma rebuild_failure_loses_output :
  fs (world_with archive_scenario1 (Some (bytes_of "previous output"))) !! "out.a"
  = Some (bytes_of "previous output")
  ∧ main no_commands tmp ["dedup-archive.py"; "in.a"; "out.a"]
      (world_with archive_scenario1 (Some (bytes_of "previous output")))
    = Some (Uncaught (CalledProcessError 1),
            World {["in.a" := archive_scenario1]}
              ["Removing 1 whisper ggml objects:"; "  [1] ggml.c.o";
               "Repacking 3 objects into out.a"]
              [OpenRead "in.a"; MkDTemp "/tmp/tmpk3v9q";
               OpenWrite "/tmp/tmpk3v9q/00000_a.o";
               OpenWrite "/tmp/tmpk3v9q/00002_b.o";
               OpenWrite "/tmp/tmpk3v9q/00003_ggml.c.o";
               PathExists "out.a"; Remove "out.a";
               Spawn ["ar"; "rcs"; "out.a"; "/tmp/tmpk3v9q/00000_a.o";
                      "/tmp/tmpk3v9q/00002_b.o"; "/tmp/tmpk3v9q/00003_ggml.c.o"];
               RmTree "/tmp/tmpk3v9q"]).
Proof. split; vm_compute; reflexivity. Qed.

(** C3, amended: when the survivors are staged and the rebuild command
    returns a status other than 0, the run aborts with
    [CalledProcessError], so with a status other than 0; the last line on
    the standard output is the one that announces the repacking.  The
    command was started on a file system that holds the staged survivors
    and no file at the output path: an earlier output is removed before
    the rebuild.  What is left in the end is what the failed command
    left, less the temporary directory. *)
Theorem rebuild_failure_aborts
    (run : list string → gmap string (list byte) → gmap string (list byte) * Z)
    (mkdtemp : gmap string (list byte) → string)
    (argv0 input_path output_path : string) (w : world)
    (content : list byte) (members : list member) :
  let tmpdir := mkdtemp (fs w) in
  let survivors := kept (skip_indices members.*1) members in
  let cmd := (["ar"; "rcs"; output_path] ++ (staged_path tmpdir <$> survivors))%list in
  let before := delete output_path (staged_fs tmpdir survivors (fs w)) in
  fs w !! input_path = Some content →
  parse_ar content = Some (Ok members) →
  actual_dups members.*1 ≠ ∅ →
  Forall (stageable tmpdir) survivors →
  (run cmd before).2 ≠ 0%Z →
  ∃ w', main run mkdtemp [argv0; input_path; output_path] w
        = Some (Uncaught (CalledProcessError (run cmd before).2), w')
        ∧ exit_status (Uncaught (CalledProcessError (run cmd before).2)) ≠ 0%Z
        ∧ before !! output_path = None
        ∧ fs w' = rmtree tmpdir (run cmd before).1
        ∧ Spawn cmd ∈ trace w'
        ∧ last (stdout w')
          = Some ("Repacking " ++ Py.str_of_nat (length survivors)
                  ++ " objects into " ++ output_path).
Proof.
  intros tmpdir survivors cmd before Hfile Hparse Hdups Hall Hfail.
  rewrite (main_slow_path run mkdtemp argv0 input_path output_path w content members)
    by done.
  set (skip := skip_indices members.*1) in *.
  set (w1 := report skip members.*1 (sys (OpenRead input_path) w)).
  assert (fs w1 = fs w) as Hfs by (unfold w1; by rewrite report_fs).
  destruct (repack_spec run mkdtemp output_path skip members w1)
    as (w' & Hrepack & Hfs' & Hout & Htrace); [by rewrite Hfs|].
  rewrite Hfs in *. fold tmpdir survivors cmd before in Hrepack, Hfs', Hout, Htrace.
  rewrite decide_False in Hrepack by done.
  rewrite decide_False in Hout by done.
  exists w'. split_and!.
  - by rewrite Hrepack.
  - done.
  - apply lookup_delete_eq.
  - done.
  - rewrite Htrace. rewrite !elem_of_app, !elem_of_cons. tauto.
  - rewrite Hout, app_nil_r. apply last_snoc.
Qed.

Lemma rebuild_failure_aborts_witness :
  ∃ w', main no_commands tmp ["dedup-archive.py"; "in.a"; "out.a"]
          (world_with archive_scenario1 (Some (bytes_of "previous output")))
        = Some (Uncaught (CalledProcessError 1), w')
        ∧ fs w' !! "out.a" = None.
Proof.
  destruct (rebuild_failure_aborts no_commands tmp "dedup-archive.py" "in.a" "out.a"
              (world_with archive_scenario1 (Some (bytes_of "previous output")))
              archive_scenario1 members_scenario1)
    as (w' & Hmain & _ & _ & Hfs & _).
  - reflexivity.
  - vm_compute. reflexivity.
  - vm_compute. discriminate.
  - vm_compute. repeat constructor.
  - simpl. lia.
  - exists w'. split; [exact Hmain|].
    rewrite Hfs. vm_compute. reflexivity.
Defined.

(** * Further properties of the reader and of [main] *)

Section ReaderErrors.

Implicit Types (f : Py.file) (fuel : nat) (content : list byte).

(** A read of a non-negative count, as a slice of the content. *)
Lemma read_take (n : Z) f :
  (0 ≤ n)%Z →
  Py.read n f
  = (take (Z.to_nat n) (drop (Py.f_pos f) (Py.f_content f)),
     Py.File (Py.f_content f)
       (Py.f_pos f + length (take (Z.to_nat n) (drop (Py.f_pos f) (Py.f_content f))))).
Proof.
  intros Hn. unfold Py.read, Py.slice_to, Py.slice_bound. cbv zeta.
  destruct (Z.ltb_spec n 0) as [?|_]; [lia|].
  set (rest := drop (Py.f_pos f) (Py.f_content f)).
  destruct (Z.ltb_spec n 0) as [?|_]; [lia|].
  assert (take (Z.to_nat (n `min` Z.of_nat (length rest))) rest
          = take (Z.to_nat n) rest) as ->; [|done].
  destruct (decide (Z.to_nat n ≤ length rest)).
  - f_equal. lia.
  - rewrite !take_ge by lia. done.
Qed.

Lemma read_length_exact (n : Z) f :
  (0 ≤ n)%Z → length (Py.read n f).1 = Z.to_nat n `min` remaining f.
Proof.
  intros Hn. rewrite read_take by done. simpl.
  by rewrite length_take, length_drop.
Qed.

Lemma read_8 content : (Py.read 8 (Py.File content 0)).1 = take 8 content.
Proof. by rewrite read_take. Qed.

Lemma decode_ascii_error (b : list byte) e :
  Py.decode_ascii b = Raise e → e = UnicodeDecodeError.
Proof. unfold Py.decode_ascii. destruct (forallb _ _); congruence. Qed.

Lemma int_error (s : string) e : Py.int s = Raise e → e = ValueError.
Proof.
  unfold Py.int.
  destruct (match Py.rstrip_by Py.is_int_space (Py.lstrip_by Py.is_int_space s) with
            | String "-" d => Z.opp <$> Py.int_digits 0 false d
            | String "+" d => Py.int_digits 0 false d
            | d => Py.int_digits 0 false d
            end); congruence.
Qed.

Lemma header_fields_error (header : list byte) e :
  header_fields header = Raise e → loop_error e.
Proof.
  unfold header_fields, loop_error.
  destruct (Py.decode_ascii (take 16 header)) as [s|e1] eqn:Hname;
    cbn [mbind result_bind].
  2:{ intros [= <-]. left. by eapply decode_ascii_error. }
  destruct (Py.decode_ascii (take 10 (drop 48 header))) as [t|e1] eqn:Hsize;
    cbn [mbind result_bind].
  2:{ intros [= <-]. left. by eapply decode_ascii_error. }
  destruct (Py.int (Py.strip t)) as [size|e1] eqn:Hint; cbn [mbind result_bind].
  - done.
  - intros [= <-]. right. by eapply int_error.
Qed.

Lemma resolve_member_error (name_field : string) (data : list byte) e :
  resolve_member name_field data = Raise e → e = ValueError.
Proof.
  unfold resolve_member. destruct (Py.startswith "#1/" name_field); [|done].
  destruct (Py.int (Py.str_drop 3 name_field)) as [name_len|e1] eqn:Hint;
    cbn [mbind result_bind]; [done|].
  intros [= <-]. by eapply int_error.
Qed.

Lemma parse_members_errors fuel f e :
  parse_members fuel f = Some (Raise e) → loop_error e.
Proof.
  revert f. induction fuel as [|fuel IH]; intros f; [done|].
  rewrite parse_members_step.
  destruct (Py.read 60 (align f)) as [header f1].
  case_decide; [done|].
  destruct (header_fields header) as [[name_field size]|e1] eqn:Hfields.
  2:{ intros [= <-]. by eapply header_fields_error. }
  destruct (Py.read_size size f1) as [[data f2]|e1] eqn:Hread.
  2:{ intros [= <-]. unfold Py.read_size in Hread.
      destruct (size <? -1)%Z; [|done]. right. congruence. }
  destruct (resolve_member name_field data) as [[member_name object_data]|e1] eqn:Hres.
  2:{ intros [= <-]. right. by eapply resolve_member_error. }
  destruct (is_special member_name); [apply IH|].
  destruct (parse_members fuel f2) as [[ms|e1]|] eqn:Hrec; [done| |done].
  intros [= <-]. by eapply IH.
Qed.

End ReaderErrors.

(** X1: what the reader raises.  A content whose first eight bytes are not
    the magic raises [AssertionError] with those bytes; behind a right
    magic the reader raises nothing but [UnicodeDecodeError] (a byte above
    127 in the name or size field) and [ValueError] (a size or a name
    length that is no decimal number, or a size below -1). *)
Theorem reader_errors (content : list byte) :
  (take 8 content ≠ ar_magic →
     parse_ar content = Some (Raise (AssertionError (take 8 content))))
  ∧ (take 8 content = ar_magic →
       ∀ e, parse_ar content = Some (Raise e) → loop_error e).
Proof.
  unfold parse_ar. pose proof (read_8 content) as Hmagic.
  destruct (Py.read 8 (Py.File content 0)) as [magic f]; simpl in Hmagic.
  subst magic. split; intros Hm.
  - by rewrite decide_False.
  - rewrite decide_True by done. intros e. apply parse_members_errors.
Qed.

(** X2: an input the reader refuses aborts the run before any output: the
    exception is not caught (status 1), the file system is as it was,
    nothing was printed, and opening the input was the only system
    call. *)
Theorem reader_failure_aborts_before_output
    (run : list string → gmap string (list byte) → gmap string (list byte) * Z)
    (mkdtemp : gmap string (list byte) → string)
    (argv0 input_path output_path : string) (w : world)
    (content : list byte) (e : exn) :
  fs w !! input_path = Some content →
  parse_ar content = Some (Raise e) →
  main run mkdtemp [argv0; input_path; output_path] w
  = Some (Uncaught e, World (fs w) (stdout w) (trace w ++ [OpenRead input_path])%list)
  ∧ exit_status (Uncaught e) = 1%Z.
Proof.
  intros Hfile Hparse. split; [|done]. unfold main; simpl. by rewrite Hfile, Hparse.
Qed.

Lemma reader_failure_aborts_before_output_witness :
  main cp_only tmp ["dedup-archive.py"; "in.a"; "out.a"]
    (world_with (bytes_of "#!/bin/sh and more") (Some (bytes_of "previous output")))
  = Some (Uncaught (AssertionError (bytes_of "#!/bin/s")),
          World (fs (world_with (bytes_of "#!/bin/sh and more")
                       (Some (bytes_of "previous output"))))
            (stdout (world_with (bytes_of "#!/bin/sh and more")
                       (Some (bytes_of "previous output"))))
            (trace (world_with (bytes_of "#!/bin/sh and more")
                      (Some (bytes_of "previous output")))
             ++ [OpenRead "in.a"])%list)
  ∧ exit_status (Uncaught (AssertionError (bytes_of "#!/bin/s"))) = 1%Z.
Proof.
  apply (reader_failure_aborts_before_output cp_only tmp "dedup-archive.py" "in.a" "out.a"
           (world_with (bytes_of "#!/bin/sh and more") (Some (bytes_of "previous output")))
           (bytes_of "#!/bin/sh and more")).
  - reflexivity.
  - vm_compute. reflexivity.
Defined.

(** X3: every header the reader parses starts at an even offset of the
    file: behind a payload of odd length the pad byte is skipped, and
    where there is no byte to skip there is no header either. *)
Theorem headers_start_at_even_offsets (f : Py.file) :
  length (Py.read 60 (align f)).1 = 60 →
  Nat.even (Py.f_pos (align f)) = true.
Proof.
  intros Hheader. unfold align in *.
  destruct (Nat.odd (Py.f_pos f)) eqn:Hodd.
  2:{ by rewrite <-Nat.negb_odd, Hodd. }
  pose proof (read_length_exact 1 f) as Hpad.
  pose proof (read_length 60 (Py.read 1 f).2) as Hnone.
  rewrite read_remaining in Hnone. rewrite read_pos.
  destruct (length (Py.read 1 f).1) as [|[|k]]; [lia| |lia].
  by rewrite Nat.add_1_r, Nat.even_succ.
Qed.

Lemma headers_start_at_even_offsets_witness :
  Nat.even (Py.f_pos (align (Py.File archive_scenario1 71))) = true.
Proof.
  apply (headers_start_at_even_offsets (Py.File archive_scenario1 71)).
  vm_compute. reflexivity.
Defined.

(** X4: a payload that is cut short is not an error.  When the size field
    is [-1], or is no less than the number of bytes left behind the
    header, the payload is all that is left of the file, the record is
    yielded (or skipped, if it is special) with it, and the archive ends
    there. *)
Theorem truncated_payload_is_yielded (fuel : nat) (f f1 f2 : Py.file)
    (header data object_data : list byte) (name_field member_name : string) (size : Z) :
  Py.read 60 (align f) = (header, f1) →
  ¬ length header < 60 →
  header_fields header = Ok (name_field, size) →
  (size = -1 ∨ Z.of_nat (remaining f1) ≤ size)%Z →
  Py.read_size size f1 = Ok (data, f2) →
  resolve_member name_field data = Ok (member_name, object_data) →
  data = drop (Py.f_pos f1) (Py.f_content f1)
  ∧ parse_members (S (S fuel)) f
    = Some (Ok (if is_special member_name then []
                else [(member_name, object_data)])).
Proof.
  intros Hheader Hlen Hfields Hsize Hread Hmember.
  pose proof (read_size_Ok _ _ _ _ Hread) as Hread'.
  assert (data = drop (Py.f_pos f1) (Py.f_content f1)) as Hdata.
  { destruct Hsize as [->|Hsize].
    - unfold Py.read, Py.slice_to, Py.slice_bound in Hread'; simpl in Hread'.
      injection Hread' as <- _.
      destruct (Z.ltb_spec (Z.of_nat (length (drop (Py.f_pos f1) (Py.f_content f1)))) 0);
        [lia|].
      apply take_ge. lia.
    - rewrite read_take in Hread' by lia. injection Hread' as <- _.
      apply take_ge. rewrite length_drop. unfold remaining in Hsize. lia. }
  split; [done|].
  assert (remaining f2 = 0) as Hend.
  { pose proof (read_remaining size f1) as Hr. rewrite Hread' in Hr; simpl in Hr.
    rewrite Hr, Hdata, length_drop. unfold remaining. lia. }
  assert (parse_members (S fuel) f2 = Some (Ok [])) as Hrest.
  { apply parse_members_short_header. pose proof (align_remaining f2). lia. }
  rewrite parse_members_step, Hheader. rewrite decide_False by done.
  rewrite Hfields, Hread, Hmember, Hrest. by destruct (is_special member_name).
Qed.

Lemma truncated_payload_is_yielded_witness :
  bytes_of "AAAA" = drop 68 archive_short_payload
  ∧ parse_members 2 (Py.File archive_short_payload 8)
    = Some (Ok (if is_special "a.o" then [] else [("a.o", bytes_of "AAAA")])).
Proof.
  apply (truncated_payload_is_yielded 0 (Py.File archive_short_payload 8)
           (Py.File archive_short_payload 68) (Py.File archive_short_payload 72)
           (ar_header (bytes_of "a.o/") 100) (bytes_of "AAAA") (bytes_of "AAAA")
           "a.o/" "a.o" 100).
  - vm_compute. reflexivity.
  - vm_compute. lia.
  - vm_compute. reflexivity.
  - right. vm_compute. discriminate.
  - vm_compute. reflexivity.
  - vm_compute. reflexivity.
Defined.

(** X5: the run always ends: the loop of the reader reads a full header in
    every iteration that goes on, so [main] returns for every argument
    list, every file system and every behaviour of the commands. *)
Theorem main_returns
    (run : list string → gmap string (list byte) → gmap string (list byte) * Z)
    (mkdtemp : gmap string (list byte) → string)
    (argv : list string) (w : world) :
  ∃ o w', main run mkdtemp argv w = Some (o, w').
Proof.
  unfold main. destruct argv as [|argv0 [|input_path [|output_path [|? ?]]]];
    try by eexists _, _.
  cbn [fs sys]. destruct (fs w !! input_path) as [content|]; [|by eexists _, _].
  destruct (parse_ar_total content) as [[members|e] ->]; [|by eexists _, _].
  case_decide.
  - destruct (subprocess_run run _ _) as [returncode w']. by eexists _, _.
  - destruct (repack run mkdtemp _ _ _ _) as [o w']. by eexists _, _.
Qed.

(** ** The drop set and the report *)

Section DropSet.

Implicit Types (names : list string) (n : string) (i : nat).

Lemma first_index_spec n names :
  n ∈ names → first_occurrence n names (first_index n names).
Proof.
  induction names as [|x names IH]; [by rewrite elem_of_nil|].
  rewrite elem_of_cons. intros Hin. simpl. case_decide as Hx.
  - subst x. split; [done|]. intros j Hj. lia.
  - destruct Hin as [->|Hin]; [done|]. destruct (IH Hin) as [Hi Hbefore].
    split; [done|]. intros [|j] Hj; simpl; [congruence|]. apply Hbefore. lia.
Qed.

(** The drop set is the set of first indices of the duplicated names. *)
Lemma skip_indices_first_indices names :
  skip_indices names
  = list_to_set ((λ n, first_index n names) <$> elements (actual_dups names)).
Proof.
  apply set_eq. intros i.
  rewrite elem_of_list_to_set, list_elem_of_fmap, elem_of_skip_indices.
  setoid_rewrite elem_of_elements. setoid_rewrite elem_of_actual_dups.
  split.
  - intros (n & Hn & Hcount & Hfirst). exists n. split; [|done].
    eapply first_occurrence_inj; [done|].
    apply first_index_spec, occurrences_pos. lia.
  - intros (n & -> & Hn & Hcount). exists n. split_and!; [done..|].
    apply first_index_spec, occurrences_pos. lia.
Qed.

Lemma first_indices_NoDup names :
  NoDup ((λ n, first_index n names) <$> elements (actual_dups names)).
Proof.
  apply NoDup_fmap_2_strong; [|apply NoDup_elements].
  intros n1 n2 Hn1 Hn2 Heq.
  apply elem_of_elements, elem_of_actual_dups in Hn1 as [_ Hn1].
  apply elem_of_elements, elem_of_actual_dups in Hn2 as [_ Hn2].
  assert (first_occurrence n1 names (first_index n1 names)) as [H1 _]
    by (apply first_index_spec, occurrences_pos; lia).
  assert (first_occurrence n2 names (first_index n2 names)) as [H2 _]
    by (apply first_index_spec, occurrences_pos; lia).
  congruence.
Qed.

Lemma sorted_le_NoDup_lt (l : list nat) :
  Sorted le l → NoDup l → StronglySorted lt l.
Proof.
  intros Hsorted%Sorted_StronglySorted; [|apply _].
  induction Hsorted as [|x l _ IH Hall]; intros Hnodup; [constructor|].
  apply NoDup_cons in Hnodup as [Hx Hnodup].
  constructor; [by apply IH|].
  rewrite Forall_forall in Hall |- *. intros y Hy.
  specialize (Hall y Hy). assert (x ≠ y) by (by intros ->). lia.
Qed.

Lemma report_stdout (skip : gset nat) names (w : world) :
  stdout (report skip names w)
  = (stdout w
     ++ ("Removing " ++ Py.str_of_nat (size skip) ++ " whisper ggml objects:")%string
        :: (report_line names <$> merge_sort le (elements skip)))%list.
Proof.
  unfold report. generalize (merge_sort le (elements skip)). intros idxs.
  assert (∀ w0, stdout (foldl (λ w idx,
            print ("  [" ++ Py.str_of_nat idx ++ "] " ++ names !!! idx) w) w0 idxs)
          = (stdout w0 ++ (report_line names <$> idxs))%list) as ->.
  { induction idxs as [|idx idxs IH]; intros w0; simpl.
    - by rewrite app_nil_r.
    - rewrite IH. simpl. by rewrite <-app_assoc. }
  simpl. by rewrite <-app_assoc.
Qed.

End DropSet.

(** X6: the drop set has one index for each candidate name that occurs
    more than once, so at most four; it is empty exactly when no candidate
    name occurs more than once, which is when [main] takes the copy
    path. *)
Theorem drop_set_size (names : list string) :
  size (skip_indices names) = size (actual_dups names)
  ∧ size (skip_indices names) ≤ 4
  ∧ (skip_indices names = ∅ ↔ actual_dups names = ∅).
Proof.
  assert (size (skip_indices names) = size (actual_dups names)) as Hsize.
  { rewrite skip_indices_first_indices.
    rewrite size_list_to_set by apply first_indices_NoDup.
    by rewrite length_fmap. }
  split; [done|]. split.
  - rewrite Hsize. etrans; [apply (subseteq_size _ duplicate_candidates)|done].
    intros n. unfold actual_dups. rewrite elem_of_filter. tauto.
  - rewrite <-!(leibniz_equiv_iff (_ : gset _) ∅), <-!size_empty_iff.
    by rewrite Hsize.
Qed.

(** X7: the report of the slow path names the number of dropped records
    and then each dropped index once, in ascending order, with the name of
    its record, which is a candidate name. *)
Theorem report_lists_drop_set_in_order (names : list string) (w : world) :
  ∃ idxs,
    stdout (report (skip_indices names) names w)
    = (stdout w
       ++ ("Removing " ++ Py.str_of_nat (length idxs) ++ " whisper ggml objects:")%string
          :: (report_line names <$> idxs))%list
    ∧ StronglySorted lt idxs
    ∧ (∀ i, i ∈ idxs ↔ i ∈ skip_indices names)
    ∧ (∀ i, i ∈ idxs →
         ∃ n, names !! i = Some n ∧ n ∈ duplicate_candidates
              ∧ report_line names i = "  [" ++ Py.str_of_nat i ++ "] " ++ n).
Proof.
  exists (merge_sort le (elements (skip_indices names))).
  pose proof (merge_sort_Permutation le (elements (skip_indices names))) as Hperm.
  assert (∀ i, i ∈ merge_sort le (elements (skip_indices names))
               ↔ i ∈ skip_indices names) as Hin.
  { intros i. by rewrite Hperm, elem_of_elements. }
  split_and!.
  - rewrite report_stdout. by rewrite (Permutation_length Hperm).
  - apply sorted_le_NoDup_lt; [apply Sorted_merge_sort; apply _|].
    rewrite Hperm. apply NoDup_elements.
  - done.
  - intros i Hi%Hin. apply elem_of_skip_indices in Hi as (n & Hn & _ & [Hi _]).
    exists n. split_and!; [done..|].
    unfold report_line. by rewrite (list_lookup_total_correct _ _ _ Hi).
Qed.

(** ** Staging and cleaning up *)

Section Staging.

Implicit Types (m : gmap string (list byte)) (tmpdir p : string).

Lemma rmtree_lookup tmpdir m p :
  rmtree tmpdir m !! p
  = if Py.startswith (tmpdir ++ "/") p then None else m !! p.
Proof.
  unfold rmtree. destruct (Py.startswith (tmpdir ++ "/") p) eqn:Hunder.
  - apply map_lookup_filter_None. right. intros data _. simpl.
    rewrite Hunder. intros Hnot. by apply Hnot.
  - destruct (m !! p) as [data|] eqn:Hp.
    + apply map_lookup_filter_Some. split; [done|]. simpl.
      rewrite Hunder. intros [].
    + apply map_lookup_filter_None. by left.
Qed.

Lemma append_inv_head (s a b : string) : s ++ a = s ++ b → a = b.
Proof.
  induction s as [|c s IH]; [done|]. intros Heq. apply IH.
  by injection Heq.
Qed.

Lemma all_digits_cons c s :
  all_digits (String c s) ↔ Py.is_digit c = true ∧ all_digits s.
Proof. unfold all_digits. simpl. by rewrite Forall_cons. Qed.

(** Digits, an underscore and a name: the digits end at the first
    underscore. *)
Lemma digits_underscore_inv (d1 d2 s1 s2 : string) :
  all_digits d1 → all_digits d2 →
  d1 ++ "_" ++ s1 = d2 ++ "_" ++ s2 → d1 = d2 ∧ s1 = s2.
Proof.
  revert d2. induction d1 as [|c1 d1 IH]; intros [|c2 d2] H1 H2 Heq.
  - by injection Heq.
  - injection Heq as <- _. by apply all_digits_cons in H2 as [? _].
  - injection Heq as -> _. by apply all_digits_cons in H1 as [? _].
  - injection Heq as -> Heq.
    apply all_digits_cons in H1 as [_ H1]. apply all_digits_cons in H2 as [_ H2].
    destruct (IH d2 H1 H2 Heq) as [-> ->]. done.
Qed.

Lemma string_of_uint_digits (u : Decimal.uint) :
  all_digits (NilEmpty.string_of_uint u).
Proof.
  induction u; simpl; try (apply all_digits_cons; split; [done|]); [constructor|done..].
Qed.

Lemma all_digits_zeros k (s : string) : all_digits s → all_digits (Py.zeros k ++ s).
Proof.
  intros Hs. induction k as [|k IH]; [done|].
  change (Py.zeros (S k) ++ s) with (String "0" (Py.zeros k ++ s)).
  by apply all_digits_cons.
Qed.

Lemma format_05d_digits (i : nat) : all_digits (Py.format_05d i).
Proof. apply all_digits_zeros, string_of_uint_digits. Qed.

(** Reading the padded number back. *)
Lemma uint_of_string_zeros k (s : string) u :
  NilEmpty.uint_of_string s = Some u →
  NilEmpty.uint_of_string (Py.zeros k ++ s) = Some (Nat.iter k Decimal.D0 u).
Proof.
  intros Hs. induction k as [|k IH]; [done|].
  change (Py.zeros (S k) ++ s) with (String "0" (Py.zeros k ++ s)).
  simpl. by rewrite IH.
Qed.

Lemma of_uint_zeros k u : Nat.of_uint (Nat.iter k Decimal.D0 u) = Nat.of_uint u.
Proof. induction k as [|k IH]; [done|]. simpl. exact IH. Qed.

Lemma format_05d_inj (i j : nat) : Py.format_05d i = Py.format_05d j → i = j.
Proof.
  intros Heq.
  assert (∀ n, Nat.of_uint <$> NilEmpty.uint_of_string (Py.format_05d n) = Some n)
    as Hback.
  { intros n. unfold Py.format_05d, Py.str_of_nat.
    rewrite (uint_of_string_zeros _ _ _ (NilEmpty.usu (Nat.to_uint n))). simpl.
    by rewrite of_uint_zeros, DecimalNat.Unsigned.of_to. }
  pose proof (Hback i) as Hi. rewrite Heq, Hback in Hi. congruence.
Qed.

Lemma out_name_inj (i j : nat) (n1 n2 : string) :
  out_name i n1 = out_name j n2 → i = j ∧ n1 = n2.
Proof.
  unfold out_name. intros Heq.
  apply digits_underscore_inv in Heq as [Hd ->]; [|apply format_05d_digits..].
  split; [by apply format_05d_inj|done].
Qed.

Lemma kept_NoDup {A} (skip : gset nat) (l : list A) : NoDup (kept skip l).*1.
Proof.
  unfold kept, enumerate.
  assert ((filter (λ ix : nat * A, ix.1 ∉ skip) (enumerate_from 0 l)).*1
          = filter (λ i, i ∉ skip) (seq 0 (length l))) as ->
    by exact (filter_enumerate_fst (λ i, i ∉ skip) 0 l).
  apply NoDup_filter, NoDup_seq.
Qed.

Lemma staged_paths_NoDup tmpdir (skip : gset nat) (members : list member) :
  NoDup (staged_path tmpdir <$> kept skip members).
Proof.
  apply NoDup_fmap_2_strong; [|eapply NoDup_fmap_1, kept_NoDup].
  intros [i [n1 d1]] [j [n2 d2]] Hi Hj Heq.
  unfold staged_path, path_join in Heq. simpl in Heq.
  apply append_inv_head, append_inv_head, out_name_inj in Heq as [-> ->].
  apply elem_of_kept in Hi as [_ Hi]. apply elem_of_kept in Hj as [_ Hj].
  congruence.
Qed.

Lemma staged_fs_snoc tmpdir (ims : list (nat * member)) im m :
  staged_fs tmpdir (ims ++ [im]) m
  = <[staged_path tmpdir im := im.2.2]> (staged_fs tmpdir ims m).
Proof. unfold staged_fs. by rewrite foldl_app. Qed.

Lemma staged_fs_lookup tmpdir (ims : list (nat * member)) im m :
  NoDup (staged_path tmpdir <$> ims) → im ∈ ims →
  staged_fs tmpdir ims m !! staged_path tmpdir im = Some im.2.2.
Proof.
  induction ims as [|x ims IH] using rev_ind; [by rewrite elem_of_nil|].
  rewrite fmap_app, NoDup_app, elem_of_app, staged_fs_snoc.
  intros (Hnodup & Hfresh & _) Hin.
  destruct (decide (staged_path tmpdir x = staged_path tmpdir im)) as [Heq|Hne].
  - rewrite Heq, lookup_insert_eq. destruct Hin as [Hin|Hin%list_elem_of_singleton].
    + exfalso. apply (Hfresh (staged_path tmpdir im)).
      * apply list_elem_of_fmap. by exists im.
      * rewrite <-Heq. simpl. left.
    + by subst.
  - rewrite lookup_insert_ne by done. destruct Hin as [Hin|Hin%list_elem_of_singleton].
    + by apply IH.
    + by subst.
Qed.

Lemma staged_fs_other tmpdir (ims : list (nat * member)) m p :
  Py.startswith (tmpdir ++ "/") p = false →
  staged_fs tmpdir ims m !! p = m !! p.
Proof.
  intros Hp. induction ims as [|x ims IH] using rev_ind; [done|].
  rewrite staged_fs_snoc, lookup_insert_ne; [done|].
  intros <-. unfold staged_path, path_join in Hp.
  assert (Py.startswith (tmpdir ++ "/")
            (tmpdir ++ "/" ++ out_name x.1 x.2.1) = true) as Hunder.
  { apply startswith_spec. exists (out_name x.1 x.2.1).
    clear. induction tmpdir as [|c t IH]; [done|].
    change (String c t ++ "/" ++ ?s) with (String c (t ++ "/" ++ s)).
    change ((String c t ++ "/") ++ ?s) with (String c ((t ++ "/") ++ s)).
    by rewrite IH. }
  congruence.
Qed.

End Staging.

(** X8: the file name a record is staged under tells its index and its
    name: two records get the same file name only if they have the same
    index and the same name. *)
Theorem out_name_injective (i j : nat) (n1 n2 : string) :
  out_name i n1 = out_name j n2 → i = j ∧ n1 = n2.
Proof. apply out_name_inj. Qed.

Lemma out_name_injective_witness : 12 = 12 ∧ "1_ggml.c.o" = "1_ggml.c.o".
Proof. apply (out_name_injective 12 12 "1_ggml.c.o" "1_ggml.c.o"). reflexivity. Defined.

(** X9: staging is faithful.  When the file of every surviving record
    can be made, the staging loop ends without an exception; the paths it
    hands to [ar] are pairwise different, also when two members share a
    name; each surviving record's file holds its payload, byte for byte;
    and no file outside the temporary directory is touched. *)
Theorem staging_is_faithful (tmpdir : string) (skip : gset nat)
    (members : list member) (w : world) :
  Forall (stageable tmpdir) (kept skip members) →
  ∃ extracted w',
    stage tmpdir skip members w = (Ok extracted, w')
    ∧ NoDup extracted
    ∧ (∀ i name data,
         members !! i = Some (name, data) → i ∉ skip →
         path_join tmpdir (out_name i name) ∈ extracted
         ∧ fs w' !! path_join tmpdir (out_name i name) = Some data)
    ∧ (∀ p, Py.startswith (tmpdir ++ "/") p = false → fs w' !! p = fs w !! p).
Proof.
  intros Hall. rewrite stage_spec by done. eexists _, _. split; [reflexivity|].
  cbn [fs]. split_and!.
  - apply staged_paths_NoDup.
  - intros i name data Hi Hskip.
    assert ((i, (name, data)) ∈ kept skip members) as Hin by by apply elem_of_kept.
    split.
    + apply list_elem_of_fmap. by exists (i, (name, data)).
    + apply (staged_fs_lookup tmpdir _ (i, (name, data)));
        [apply staged_paths_NoDup|done].
  - intros p Hp. by apply staged_fs_other.
Qed.

Lemma staging_is_faithful_witness :
  ∃ extracted w',
    stage "/tmp/t" {[1]} members_scenario1 (world_with archive_scenario1 None)
    = (Ok extracted, w')
    ∧ NoDup extracted
    ∧ fs w' !! "/tmp/t/00003_ggml.c.o" = Some (bytes_of "llama")
    ∧ fs w' !! "in.a" = Some archive_scenario1.
Proof.
  destruct (staging_is_faithful "/tmp/t" {[1]} members_scenario1
              (world_with archive_scenario1 None))
    as (extracted & w' & Hstage & Hnodup & Hfiles & Hother).
  - vm_compute. repeat constructor.
  - exists extracted, w'. split_and!; [exact Hstage|exact Hnodup|..].
    + apply (Hfiles 3 "ggml.c.o" (bytes_of "llama")); [reflexivity|].
      vm_compute. intros Hin. discriminate Hin.
    + rewrite Hother by reflexivity. reflexivity.
Defined.

(** X10: the temporary directory does not outlive the run.  The slow path
    ends in one of three ways: with status 0, with the
    [CalledProcessError] of a failed [ar], or with the exception [open]
    raises for a survivor whose file cannot be made.  In each of them no
    file under the temporary directory is left in the end, and removing
    the directory is the last call of the run. *)
Theorem temporary_directory_is_removed
    (run : list string → gmap string (list byte) → gmap string (list byte) * Z)
    (mkdtemp : gmap string (list byte) → string)
    (argv0 input_path output_path : string) (w : world)
    (content : list byte) (members : list member) :
  let tmpdir := mkdtemp (fs w) in
  let survivors := kept (skip_indices members.*1) members in
  fs w !! input_path = Some content →
  parse_ar content = Some (Ok members) →
  actual_dups members.*1 ≠ ∅ →
  ∃ o w', main run mkdtemp [argv0; input_path; output_path] w = Some (o, w')
          ∧ (o = Exit 0
             ∨ (∃ returncode, returncode ≠ 0%Z ∧ o = Uncaught (CalledProcessError returncode))
             ∨ (∃ im e, im ∈ survivors
                        ∧ open_wb_error tmpdir (out_name im.1 im.2.1) = Some e
                        ∧ o = Uncaught e))
          ∧ (∀ p, Py.startswith (tmpdir ++ "/") p = true → fs w' !! p = None)
          ∧ last (trace w') = Some (RmTree tmpdir).
Proof.
  intros tmpdir survivors Hfile Hparse Hdups.
  rewrite (main_slow_path run mkdtemp argv0 input_path output_path w content members)
    by done.
  set (skip := skip_indices members.*1) in *.
  set (w1 := report skip members.*1 (sys (OpenRead input_path) w)).
  assert (fs w1 = fs w) as Hfs by (unfold w1; by rewrite report_fs).
  destruct (first_unstageable tmpdir survivors)
    as [Hall|(before & im & after & e & Hkept & Hbefore & Herr)].
  - destruct (repack_spec run mkdtemp output_path skip members w1)
      as (w' & Hrepack & Hfs' & _ & Htrace); [by rewrite Hfs|].
    rewrite Hfs in *. fold tmpdir survivors in Hrepack, Hfs', Htrace.
    eexists _, w'. split; [by rewrite Hrepack|]. split_and!.
    + destruct (decide _) as [Hok|Hfail]; [by left|]. right; left. by eexists.
    + intros p Hp. by rewrite Hfs', rmtree_lookup, Hp.
    + rewrite Htrace.
      match goal with
      | |- context [[Spawn ?cmd; RmTree tmpdir]] =>
          change [Spawn cmd; RmTree tmpdir] with ([Spawn cmd] ++ [RmTree tmpdir])%list
      end.
      rewrite !app_assoc. apply last_snoc.
  - rewrite (repack_failure run mkdtemp output_path skip members w1 before im after e)
      by (by rewrite ?Hfs).
    rewrite Hfs. fold tmpdir. eexists _, _. split; [reflexivity|]. split_and!.
    + right; right. exists im, e. split_and!; [|done..].
      fold skip in Hkept. fold survivors. rewrite Hkept.
      rewrite elem_of_app, elem_of_cons. tauto.
    + intros p Hp. cbn [fs]. by rewrite rmtree_lookup, Hp.
    + cbn [trace].
      change [OpenWrite (staged_path tmpdir im); RmTree tmpdir]
        with ([OpenWrite (staged_path tmpdir im)] ++ [RmTree tmpdir])%list.
      rewrite !app_assoc. apply last_snoc.
Qed.

Lemma temporary_directory_is_removed_witness :
  ∃ o w', main ar_and_cp tmp ["dedup-archive.py"; "in.a"; "out.a"]
            (world_with archive_gnu_long_name None) = Some (o, w')
          ∧ fs w' !! "/tmp/tmpk3v9q/00000_ggml.c.o" = None
          ∧ last (trace w') = Some (RmTree "/tmp/tmpk3v9q").
Proof.
  destruct (temporary_directory_is_removed ar_and_cp tmp "dedup-archive.py" "in.a" "out.a"
              (world_with archive_gnu_long_name None) archive_gnu_long_name members_gnu_long_name)
    as (o & w' & Hmain & _ & Hfs & Hlast).
  - reflexivity.
  - vm_compute. reflexivity.
  - vm_compute. discriminate.
  - exists o, w'. split; [exact Hmain|]. split; [|exact Hlast].
    apply Hfs. reflexivity.
Defined.

(** X11: a successful rebuild, end to end.  When the survivors are staged
    and [ar] returns 0 the run ends with status 0; [ar] was started once,
    on the output path and the staged files of the survivors in the order
    of the input, with no file at the output path; the standard output
    holds the report, the line that announces the repacking and the
    closing line; and the calls are those of staging, the removal of an
    earlier output, [ar] and the cleanup, in this order. *)
Theorem rebuild_success
    (run : list string → gmap string (list byte) → gmap string (list byte) * Z)
    (mkdtemp : gmap string (list byte) → string)
    (argv0 input_path output_path : string) (w : world)
    (content : list byte) (members : list member) :
  let tmpdir := mkdtemp (fs w) in
  let skip := skip_indices members.*1 in
  let survivors := kept skip members in
  let cmd := (["ar"; "rcs"; output_path] ++ (staged_path tmpdir <$> survivors))%list in
  let before := delete output_path (staged_fs tmpdir survivors (fs w)) in
  fs w !! input_path = Some content →
  parse_ar content = Some (Ok members) →
  actual_dups members.*1 ≠ ∅ →
  Forall (stageable tmpdir) survivors →
  (run cmd before).2 = 0%Z →
  ∃ w', main run mkdtemp [argv0; input_path; output_path] w = Some (Exit 0, w')
        ∧ fs w' = rmtree tmpdir (run cmd before).1
        ∧ stdout w'
          = (stdout w
             ++ [("Removing " ++ Py.str_of_nat (size skip)
                  ++ " whisper ggml objects:")%string]
             ++ (report_line members.*1 <$> merge_sort le (elements skip))
             ++ [("Repacking " ++ Py.str_of_nat (length survivors)
                  ++ " objects into " ++ output_path)%string; "Done!"])%list
        ∧ trace w'
          = (trace w ++ [OpenRead input_path; MkDTemp tmpdir]
             ++ (OpenWrite ∘ staged_path tmpdir <$> survivors)
             ++ [PathExists output_path]
             ++ (if decide (is_Some (staged_fs tmpdir survivors (fs w) !! output_path))
                 then [Remove output_path] else [])
             ++ [Spawn cmd; RmTree tmpdir])%list.
Proof.
  intros tmpdir skip survivors cmd before Hfile Hparse Hdups Hall Hok.
  rewrite (main_slow_path run mkdtemp argv0 input_path output_path w content members)
    by done.
  fold skip.
  set (w1 := report skip members.*1 (sys (OpenRead input_path) w)).
  assert (fs w1 = fs w) as Hfs by (unfold w1; by rewrite report_fs).
  assert (trace w1 = (trace w ++ [OpenRead input_path])%list) as Htrace1
    by (unfold w1; by rewrite report_trace).
  assert (stdout w1
          = (stdout w
             ++ ("Removing " ++ Py.str_of_nat (size skip) ++ " whisper ggml objects:")%string
                :: (report_line members.*1 <$> merge_sort le (elements skip)))%list)
    as Hstdout1 by (unfold w1; by rewrite report_stdout).
  destruct (repack_spec run mkdtemp output_path skip members w1)
    as (w' & Hrepack & Hfs' & Hout & Htrace); [by rewrite Hfs|].
  rewrite Hfs in *. fold tmpdir survivors cmd before in Hrepack, Hfs', Hout, Htrace.
  rewrite decide_True in Hrepack by done.
  rewrite decide_True in Hout by done.
  exists w'. split_and!.
  - by rewrite Hrepack.
  - done.
  - rewrite Hout, Hstdout1. simpl. by rewrite <-!app_assoc.
  - rewrite Htrace, Htrace1. by rewrite <-!app_assoc.
Qed.

(** X15: a survivor whose file cannot be made ends the run.  The run
    aborts with the exception [open] raises for the first such survivor
    (status 1), after the report and before the line that announces the
    repacking; the survivors before it were staged and are removed with
    the temporary directory; no command was started and no file was
    removed, so every path outside the temporary directory, the output
    among them, holds what it held. *)
Theorem staging_failure_aborts
    (run : list string → gmap string (list byte) → gmap string (list byte) * Z)
    (mkdtemp : gmap string (list byte) → string)
    (argv0 input_path output_path : string) (w : world)
    (content : list byte) (members : list member)
    (before : list (nat * member)) (im : nat * member) (after : list (nat * member))
    (e : exn) :
  let tmpdir := mkdtemp (fs w) in
  let skip := skip_indices members.*1 in
  fs w !! input_path = Some content →
  parse_ar content = Some (Ok members) →
  actual_dups members.*1 ≠ ∅ →
  kept skip members = (before ++ im :: after)%list →
  Forall (stageable tmpdir) before →
  open_wb_error tmpdir (out_name im.1 im.2.1) = Some e →
  ∃ w', main run mkdtemp [argv0; input_path; output_path] w = Some (Uncaught e, w')
        ∧ exit_status (Uncaught e) = 1%Z
        ∧ (∀ p, fs w' !! p
                = if Py.startswith (tmpdir ++ "/") p then None else fs w !! p)
        ∧ stdout w'
          = (stdout w
             ++ ("Removing " ++ Py.str_of_nat (size skip) ++ " whisper ggml objects:")%string
                :: (report_line members.*1 <$> merge_sort le (elements skip)))%list
        ∧ trace w'
          = (trace w ++ [OpenRead input_path; MkDTemp tmpdir]
             ++ (OpenWrite ∘ staged_path tmpdir <$> before)
             ++ [OpenWrite (staged_path tmpdir im); RmTree tmpdir])%list.
Proof.
  intros tmpdir skip Hfile Hparse Hdups Hkept Hbefore Herr.
  rewrite (main_slow_path run mkdtemp argv0 input_path output_path w content members)
    by done.
  fold skip.
  set (w1 := report skip members.*1 (sys (OpenRead input_path) w)).
  assert (fs w1 = fs w) as Hfs by (unfold w1; by rewrite report_fs).
  assert (trace w1 = (trace w ++ [OpenRead input_path])%list) as Htrace1
    by (unfold w1; by rewrite report_trace).
  assert (stdout w1
          = (stdout w
             ++ ("Removing " ++ Py.str_of_nat (size skip) ++ " whisper ggml objects:")%string
                :: (report_line members.*1 <$> merge_sort le (elements skip)))%list)
    as Hstdout1 by (unfold w1; by rewrite report_stdout).
  rewrite (repack_failure run mkdtemp output_path skip members w1 before im after e)
    by (by rewrite ?Hfs).
  rewrite Hfs, Hstdout1, Htrace1. fold tmpdir.
  eexists. split; [reflexivity|]. cbn [fs stdout trace]. split_and!.
  - done.
  - intros p. rewrite rmtree_lookup.
    destruct (Py.startswith (tmpdir ++ "/") p) eqn:Hp; [done|].
    by apply staged_fs_other.
  - done.
  - by rewrite <-!app_assoc.
Qed.

(** The member [a.o] is staged, then [open] refuses [b.o/]: the run ends
    in [IsADirectoryError] and the earlier output is still there. *)
Lemma staging_failure_aborts_witness :
  ∃ w', main ar_and_cp tmp ["dedup-archive.py"; "in.a"; "out.a"]
          (world_with
             (ar_magic ++ ar_records [(GnuShort, ("a.o", bytes_of "AAA"));
                                      (GnuShort, ("ggml.c.o", bytes_of "whisper"));
                                      (BsdExtended 0, ("b.o/", bytes_of "BB"));
                                      (GnuShort, ("ggml.c.o", bytes_of "llama"))])%list
             (Some (bytes_of "previous output")))
        = Some (Uncaught (IsADirectoryError "/tmp/tmpk3v9q/00002_b.o/"), w')
        ∧ fs w' !! "out.a" = Some (bytes_of "previous output")
        ∧ fs w' !! "/tmp/tmpk3v9q/00000_a.o" = None
        ∧ last (trace w') = Some (RmTree "/tmp/tmpk3v9q").
Proof.
  destruct (staging_failure_aborts ar_and_cp tmp "dedup-archive.py" "in.a" "out.a"
              (world_with
                 (ar_magic ++ ar_records [(GnuShort, ("a.o", bytes_of "AAA"));
                                          (GnuShort, ("ggml.c.o", bytes_of "whisper"));
                                          (BsdExtended 0, ("b.o/", bytes_of "BB"));
                                          (GnuShort, ("ggml.c.o", bytes_of "llama"))])%list
                 (Some (bytes_of "previous output")))
              (ar_magic ++ ar_records [(GnuShort, ("a.o", bytes_of "AAA"));
                                       (GnuShort, ("ggml.c.o", bytes_of "whisper"));
                                       (BsdExtended 0, ("b.o/", bytes_of "BB"));
                                       (GnuShort, ("ggml.c.o", bytes_of "llama"))])%list
              [("a.o", bytes_of "AAA"); ("ggml.c.o", bytes_of "whisper");
               ("b.o/", bytes_of "BB"); ("ggml.c.o", bytes_of "llama")]
              [(0, ("a.o", bytes_of "AAA"))] (2, ("b.o/", bytes_of "BB"))
              [(3, ("ggml.c.o", bytes_of "llama"))]
              (IsADirectoryError "/tmp/tmpk3v9q/00002_b.o/"))
    as (w' & Hmain & _ & Hfs & _ & Htrace).
  - reflexivity.
  - vm_compute. reflexivity.
  - vm_compute. discriminate.
  - vm_compute. reflexivity.
  - vm_compute. repeat constructor.
  - vm_compute. reflexivity.
  - exists w'. split; [exact Hmain|]. split_and!.
    + rewrite Hfs. reflexivity.
    + rewrite Hfs. reflexivity.
    + rewrite Htrace. vm_compute. reflexivity.
Defined.

(** ** Reading back a well-formed archive *)

Section RoundTrip.

Implicit Types (s t : string) (p : ascii → bool) (c : ascii) (b : list byte).

Lemma free_of_cons p c s : free_of p (String c s) ↔ p c = false ∧ free_of p s.
Proof. unfold free_of. simpl. by rewrite Forall_cons. Qed.

Lemma append_cons c s t : String c s ++ t = String c (s ++ t).
Proof. done. Qed.

Lemma append_nil_l t : "" ++ t = t.
Proof. done. Qed.

Lemma rstrip_by_all p k c :
  p c = true → Py.rstrip_by p (string_of_list_ascii (replicate k c)) = "".
Proof.
  intros Hc. induction k as [|k IH]; [done|]. simpl. by rewrite IH, Hc.
Qed.

Lemma rstrip_by_app p s t : Py.rstrip_by p t = "" → Py.rstrip_by p (s ++ t) = Py.rstrip_by p s.
Proof.
  intros Ht. induction s as [|c s IH]; [done|].
  rewrite append_cons. simpl. by rewrite IH.
Qed.

Lemma rstrip_by_free p s : free_of p s → Py.rstrip_by p s = s.
Proof.
  induction s as [|c s IH]; [done|].
  intros [Hc Hs]%free_of_cons. simpl. rewrite (IH Hs).
  destruct s; [by rewrite Hc|done].
Qed.

Lemma lstrip_by_head p c s : p c = false → Py.lstrip_by p (String c s) = String c s.
Proof. intros Hc. simpl. by rewrite Hc. Qed.

(** A padded field, stripped. *)
Lemma strip_padded s k :
  s ≠ "" → free_of Py.is_space s → Py.strip (s ++ spaces k) = s.
Proof.
  intros Hne Hfree. unfold Py.strip. destruct s as [|c s]; [done|].
  pose proof Hfree as [Hc _]%free_of_cons.
  rewrite append_cons, lstrip_by_head by done. rewrite <-append_cons.
  rewrite rstrip_by_app by (by apply rstrip_by_all).
  by apply rstrip_by_free.
Qed.

Lemma strip_by_free p s : free_of p s → Py.rstrip_by p (Py.lstrip_by p s) = s.
Proof.
  intros Hfree. destruct s as [|c s]; [done|].
  pose proof Hfree as [Hc _]%free_of_cons.
  rewrite lstrip_by_head by done. by apply rstrip_by_free.
Qed.

Lemma strip_free s : free_of Py.is_space s → Py.strip s = s.
Proof. apply strip_by_free. Qed.

(** What [int] skips, [str.strip] drops. *)
Lemma int_space_free s : free_of Py.is_space s → free_of Py.is_int_space s.
Proof.
  unfold free_of. intros Hfree. eapply Forall_impl; [exact Hfree|]. intros c Hc.
  destruct c as [[] [] [] [] [] [] [] []]; try discriminate Hc; reflexivity.
Qed.

Lemma str_of_bytes_app b1 b2 :
  Py.str_of_bytes (b1 ++ b2) = Py.str_of_bytes b1 ++ Py.str_of_bytes b2.
Proof.
  unfold Py.str_of_bytes. induction b1 as [|x b1 IH]; [done|].
  rewrite <-app_comm_cons, !fmap_cons. simpl. rewrite append_cons. by f_equal.
Qed.

Lemma str_of_bytes_of s : Py.str_of_bytes (bytes_of s) = s.
Proof.
  unfold Py.str_of_bytes, bytes_of.
  rewrite <-(string_of_list_ascii_of_string s) at 2.
  generalize (list_ascii_of_string s). intros l.
  induction l as [|c l IH]; [done|].
  rewrite !fmap_cons. simpl. by rewrite ascii_of_byte_of_ascii, IH.
Qed.

Lemma str_of_bytes_spaces k : Py.str_of_bytes (replicate k x20) = spaces k.
Proof.
  unfold Py.str_of_bytes, spaces. by rewrite fmap_replicate.
Qed.

Lemma is_ascii_byte_of_ascii c :
  Py.is_ascii (byte_of_ascii c) = (N_of_ascii c <? 128)%N.
Proof.
  unfold Py.is_ascii. f_equal. apply Byte.to_of_N.
  symmetry. apply byte_of_ascii_via_N.
Qed.

Lemma length_bytes_of s : length (bytes_of s) = String.length s.
Proof.
  unfold bytes_of. rewrite length_fmap.
  induction s as [|c s IH]; [done|]. simpl. by rewrite IH.
Qed.

(** Decoding a padded field whose characters are ASCII. *)
Lemma decode_ascii_field n s :
  Forall (λ c, (N_of_ascii c <? 128)%N = true) (list_ascii_of_string s) →
  Py.decode_ascii (field n (bytes_of s))
  = Ok (s ++ spaces (n - String.length s)).
Proof.
  intros Hascii. unfold Py.decode_ascii, field.
  rewrite forallb_app.
  assert (forallb Py.is_ascii (bytes_of s) = true) as ->.
  { unfold bytes_of. induction Hascii as [|c l Hc _ IH]; [done|].
    rewrite fmap_cons. simpl. by rewrite is_ascii_byte_of_ascii, Hc, IH. }
  assert (∀ k, forallb Py.is_ascii (replicate k x20) = true) as ->.
  { intros k. induction k as [|k IH]; [done|]. simpl. exact IH. }
  simpl. by rewrite str_of_bytes_app, str_of_bytes_of, str_of_bytes_spaces,
    length_bytes_of.
Qed.

(** [int] on a decimal literal without sign. *)
Lemma int_unsigned c s :
  Py.is_digit c = true → free_of Py.is_space (String c s) →
  Py.int (String c s)
  = match Py.int_digits 0 false (String c s) with
    | Some z => Ok z
    | None => Raise ValueError
    end.
Proof.
  intros Hc Hfree. unfold Py.int. rewrite strip_by_free by by apply int_space_free.
  destruct c as [[] [] [] [] [] [] [] []]; try discriminate Hc; reflexivity.
Qed.

Lemma int_digits_uint (u : Decimal.uint) (z : Z) (acc : nat) (after_digit : bool) :
  z = Z.of_nat acc → after_digit = true ∨ u ≠ Decimal.Nil →
  Py.int_digits z after_digit (NilEmpty.string_of_uint u)
  = Some (Z.of_nat (Nat.of_uint_acc u acc)).
Proof.
  revert z acc after_digit.
  induction u as [|u IH|u IH|u IH|u IH|u IH|u IH|u IH|u IH|u IH|u IH];
    intros z acc after_digit -> Hstart;
    [by destruct Hstart as [->|?]|..];
    cbn [NilEmpty.string_of_uint Py.int_digits Nat.of_uint_acc];
    (apply IH; [|by left]); rewrite Nat.tail_mul_spec; unfold Py.digit_val; simpl; lia.
Qed.

Lemma to_uint_not_nil (n : nat) : Nat.to_uint n ≠ Decimal.Nil.
Proof.
  intros Hnil. pose proof (DecimalNat.Unsigned.of_to n) as Hback.
  rewrite Hnil in Hback. destruct n; [done|]. discriminate Hback.
Qed.

Lemma all_digits_free (s : string) : all_digits s → free_of Py.is_space s.
Proof.
  unfold all_digits, free_of. intros Hdigits.
  eapply Forall_impl; [exact Hdigits|]. intros c Hc.
  destruct c as [[] [] [] [] [] [] [] []]; try discriminate Hc; reflexivity.
Qed.

(** The decimal digits of a number read back by [int], with or without
    the padding of the field. *)
Lemma int_str_of_nat (n k : nat) :
  Py.int (Py.strip (Py.str_of_nat n ++ spaces k)) = Ok (Z.of_nat n).
Proof.
  unfold Py.str_of_nat.
  pose proof (string_of_uint_digits (Nat.to_uint n)) as Hdigits.
  pose proof (all_digits_free _ Hdigits) as Hfree.
  pose proof (to_uint_not_nil n) as Hnil.
  pose proof (int_digits_uint (Nat.to_uint n) 0 0 false eq_refl (or_intror Hnil)) as Hint.
  destruct (NilEmpty.string_of_uint (Nat.to_uint n)) as [|c s] eqn:Hs.
  { by destruct (Nat.to_uint n). }
  rewrite strip_padded by done.
  apply Forall_cons in Hdigits as [Hc _].
  rewrite int_unsigned, Hint by done.
  change (Nat.of_uint_acc (Nat.to_uint n) 0) with (Nat.of_uint (Nat.to_uint n)).
  by rewrite DecimalNat.Unsigned.of_to.
Qed.

Lemma field_length n b : length b ≤ n → length (field n b) = n.
Proof. intros Hb. unfold field. rewrite length_app, length_replicate. lia. Qed.

Lemma ar_header_split (name_field : list byte) (size : nat) :
  ar_header name_field size
  = ((field 16 name_field
      ++ (field 12 (bytes_of "0") ++ field 6 (bytes_of "0")
          ++ field 6 (bytes_of "0") ++ field 8 (bytes_of "644")))
     ++ field 10 (bytes_of (Py.str_of_nat size)) ++ [x60; x0a])%list.
Proof. unfold ar_header. by rewrite <-!app_assoc. Qed.

Lemma ar_header_length (name_field : list byte) (size : nat) :
  length name_field ≤ 16 → String.length (Py.str_of_nat size) ≤ 10 →
  length (ar_header name_field size) = 60.
Proof.
  intros Hname Hsize. rewrite ar_header_split, !length_app.
  rewrite !field_length by (rewrite ?length_bytes_of; simpl; lia). done.
Qed.

Lemma ar_header_name (name_field : list byte) (size : nat) :
  length name_field ≤ 16 →
  take 16 (ar_header name_field size) = field 16 name_field.
Proof.
  intros Hname. unfold ar_header.
  by rewrite take_app_length' by (symmetry; by apply field_length).
Qed.

Lemma ar_header_size (name_field : list byte) (size : nat) :
  length name_field ≤ 16 → String.length (Py.str_of_nat size) ≤ 10 →
  take 10 (drop 48 (ar_header name_field size))
  = field 10 (bytes_of (Py.str_of_nat size)).
Proof.
  intros Hname Hsize. rewrite ar_header_split.
  rewrite drop_app_length'.
  2:{ rewrite length_app, field_length by done. done. }
  by rewrite take_app_length'
    by (symmetry; apply field_length; by rewrite length_bytes_of).
Qed.

Lemma list_ascii_of_string_app s t :
  list_ascii_of_string (s ++ t)
  = (list_ascii_of_string s ++ list_ascii_of_string t)%list.
Proof. induction s as [|c s IH]; [done|]. rewrite append_cons. simpl. by f_equal. Qed.

Lemma length_append s t : String.length (s ++ t) = String.length s + String.length t.
Proof. induction s as [|c s IH]; [done|]. rewrite append_cons. simpl. by f_equal. Qed.

(** What [short_name] says. *)
Lemma short_name_spec (name : string) :
  short_name name = true →
  1 ≤ String.length name ≤ 15
  ∧ Forall (λ c, name_char c = true) (list_ascii_of_string name)
  ∧ name ≠ "#1"
  ∧ Py.startswith "__.SYMDEF" name = false.
Proof.
  unfold short_name. rewrite !andb_true_iff, !negb_true_iff.
  intros ((((Hmin & Hmax) & Hchars) & Hmarker) & Hsym).
  apply Nat.leb_le in Hmin, Hmax. apply String.eqb_neq in Hmarker.
  split_and!; try done. apply Forall_forall. intros c Hc%list_elem_of_In.
  by eapply forallb_forall in Hchars.
Qed.

Lemma name_char_spec c :
  name_char c = true →
  (N_of_ascii c <? 128)%N = true ∧ Py.is_space c = false ∧ c ≠ "/"%char.
Proof.
  unfold name_char. rewrite !andb_true_iff, !negb_true_iff.
  intros [[? ?] Hslash]. by apply Ascii.eqb_neq in Hslash.
Qed.


(** The two fields of a header laid out by [ar_header]. *)
Lemma header_fields_ar_header (name_field : string) (size : nat) :
  name_field ≠ "" → String.length name_field ≤ 16 →
  Forall (λ c, (N_of_ascii c <? 128)%N = true ∧ Py.is_space c = false)
    (list_ascii_of_string name_field) →
  String.length (Py.str_of_nat size) ≤ 10 →
  header_fields (ar_header (bytes_of name_field) size)
  = Ok (name_field, Z.of_nat size).
Proof.
  intros Hne Hlen Hchars Hsize.
  assert (length (bytes_of name_field) ≤ 16) as Hfield by by rewrite length_bytes_of.
  unfold header_fields.
  rewrite ar_header_name by done. rewrite decode_ascii_field.
  2:{ eapply Forall_impl; [exact Hchars|]. by intros c [? _]. }
  cbn [mbind result_bind].
  rewrite strip_padded; [|done|].
  2:{ eapply Forall_impl; [exact Hchars|]. by intros c [_ ?]. }
  rewrite ar_header_size by done. rewrite decode_ascii_field.
  2:{ eapply Forall_impl; [apply string_of_uint_digits|]. intros c Hc.
      destruct c as [[] [] [] [] [] [] [] []]; try discriminate Hc; reflexivity. }
  cbn [mbind result_bind]. by rewrite int_str_of_nat.
Qed.

Lemma int_of_str_of_nat (n : nat) : Py.int (Py.str_of_nat n) = Ok (Z.of_nat n).
Proof.
  rewrite <-(int_str_of_nat n 0).
  assert (Py.str_of_nat n ++ spaces 0 = Py.str_of_nat n) as ->.
  { unfold spaces. simpl. generalize (Py.str_of_nat n). intros s.
    induction s as [|c s IH]; [done|]. rewrite append_cons. by f_equal. }
  rewrite (strip_free (Py.str_of_nat n)); [done|].
  apply all_digits_free, string_of_uint_digits.
Qed.

Lemma rstrip_nul_zeros k : Py.rstrip_nul (replicate k x00) = [].
Proof. induction k as [|k IH]; [done|]. simpl. by rewrite IH. Qed.

Lemma rstrip_nul_app b1 b2 :
  Py.rstrip_nul b2 = [] → Py.rstrip_nul (b1 ++ b2) = Py.rstrip_nul b1.
Proof.
  intros Hb2. induction b1 as [|x b1 IH]; [done|].
  rewrite <-app_comm_cons. simpl. by rewrite IH.
Qed.

Lemma rstrip_nul_free b : Forall (λ x, x ≠ x00) b → Py.rstrip_nul b = b.
Proof.
  induction 1 as [|x b Hx _ IH]; [done|]. simpl. rewrite IH.
  destruct b; [|done]. destruct (Byte.eqb x x00) eqn:Heq; [|done].
  by apply Byte.byte_dec_bl in Heq.
Qed.

Lemma long_name_char_spec c :
  long_name_char c = true →
  (N_of_ascii c <? 128)%N = true ∧ byte_of_ascii c ≠ x00.
Proof.
  unfold long_name_char. rewrite andb_true_iff. intros [Hpos Hascii].
  split; [done|]. intros Hnul.
  assert (c = ascii_of_byte x00) as -> by by rewrite <-Hnul, ascii_of_byte_of_ascii.
  done.
Qed.

(** The bytes of an extended name, stripped of the padding and decoded. *)
Lemma decode_padded_name (name : string) (padding : nat) :
  Forall (λ c, long_name_char c = true) (list_ascii_of_string name) →
  Py.decode_ascii_replace (Py.rstrip_nul (bytes_of name ++ replicate padding x00))
  = name.
Proof.
  intros Hchars.
  rewrite rstrip_nul_app by apply rstrip_nul_zeros.
  rewrite rstrip_nul_free.
  2:{ unfold bytes_of. apply Forall_fmap.
      eapply Forall_impl; [exact Hchars|]. by intros c [_ ?]%long_name_char_spec. }
  unfold bytes_of. rewrite <-(string_of_list_ascii_of_string name) at 2.
  induction Hchars as [|c l [Hc _]%long_name_char_spec _ IH]; [done|].
  rewrite fmap_cons. simpl. by rewrite is_ascii_byte_of_ascii, Hc, ascii_of_byte_of_ascii, IH.
Qed.

Lemma slice_at_length {A} (l1 l2 : list A) :
  Py.slice_to (Z.of_nat (length l1)) (l1 ++ l2) = l1
  ∧ Py.slice_from (Z.of_nat (length l1)) (l1 ++ l2) = l2.
Proof.
  unfold Py.slice_to, Py.slice_from, Py.slice_bound.
  destruct (Z.ltb_spec (Z.of_nat (length l1)) 0); [lia|].
  rewrite length_app, Z.min_l, Nat2Z.id by lia.
  by rewrite take_app_length, drop_app_length.
Qed.

(** An extended name and its payload, resolved. *)
Lemma resolve_member_extended (name : string) (padding : nat) (data : list byte) :
  Forall (λ c, long_name_char c = true) (list_ascii_of_string name) →
  resolve_member ("#1/" ++ Py.str_of_nat (String.length name + padding))
    (bytes_of name ++ replicate padding x00 ++ data)
  = Ok (name, data).
Proof.
  intros Hchars. unfold resolve_member.
  assert (Py.startswith "#1/" ("#1/" ++ Py.str_of_nat (String.length name + padding))
          = true) as -> by (apply startswith_spec; by eexists).
  change (Py.str_drop 3 ("#1/" ++ ?d)) with d.
  rewrite int_of_str_of_nat. cbn [mbind result_bind].
  assert (String.length name + padding
          = length (bytes_of name ++ replicate padding x00)) as ->
    by by rewrite length_app, length_bytes_of, length_replicate.
  rewrite app_assoc.
  destruct (slice_at_length (bytes_of name ++ replicate padding x00) data) as [-> ->].
  by rewrite decode_padded_name.
Qed.

(** A plain name in the name field, with or without the closing slash. *)
Lemma resolve_member_plain (name closing : string) (data : list byte) :
  closing = "" ∨ closing = "/" →
  name ≠ "" → (closing = "/" → name ≠ "#1") →
  Forall (λ c, name_char c = true) (list_ascii_of_string name) →
  resolve_member (name ++ closing) data = Ok (name, data).
Proof.
  intros Hclosing Hne Hmarker Hchars. unfold resolve_member.
  destruct (Py.startswith "#1/" (name ++ closing)) eqn:Hext.
  { exfalso. apply startswith_spec in Hext as [rest Hrest].
    destruct name as [|c1 [|c2 [|c3 name]]]; [done|..].
    - destruct Hclosing as [-> | ->]; by injection Hrest.
    - destruct Hclosing as [-> | ->]; [by injection Hrest|].
      injection Hrest as -> -> _. by apply Hmarker.
    - injection Hrest as _ _ -> _.
      apply Forall_cons in Hchars as [_ Hchars].
      apply Forall_cons in Hchars as [_ Hchars].
      by apply Forall_cons in Hchars as [Hc _]. }
  f_equal. f_equal. unfold Py.rstrip.
  rewrite rstrip_by_app by (by destruct Hclosing as [-> | ->]).
  apply rstrip_by_free.
  eapply Forall_impl; [exact Hchars|]. intros c (_ & _ & Hc)%name_char_spec.
  cbv beta. apply Ascii.eqb_neq. congruence.
Qed.

Lemma is_special_plain (name : string) :
  name ≠ "" → Forall (λ c, name_char c = true) (list_ascii_of_string name) →
  Py.startswith "__.SYMDEF" name = false → is_special name = false.
Proof.
  intros Hne Hchars Hsym.
  unfold is_special. rewrite Hsym. simpl. apply bool_decide_eq_false.
  rewrite !elem_of_cons, elem_of_nil.
  destruct name as [|c name]; [done|].
  apply Forall_cons in Hchars as [(_ & _ & Hc)%name_char_spec _].
  intros [[= -> _]|[[= -> _]|[?|[]]]]; done.
Qed.

Lemma append_nil_r s : s ++ "" = s.
Proof. induction s as [|c s IH]; [done|]. rewrite append_cons. by f_equal. Qed.

(** A valid entry is a record the loop reads back. *)
Lemma valid_entry_readable (e : name_form * member) :
  valid_entry e →
  readable_record (name_field_of e.1 e.2.1) (payload_of e.1 e.2) e.2.
Proof.
  destruct e as [form [name data]]. intros [Hname Hsize].
  unfold readable_record.
  destruct form as [| |padding];
    cbn [valid_name name_field_of payload_of fst snd] in *.
  - apply short_name_spec in Hname as (Hlen & Hchars & Hmarker & Hsym).
    assert (name ≠ "") by (intros ->; simpl in Hlen; lia).
    split_and!.
    + by destruct name.
    + rewrite length_append. simpl. lia.
    + rewrite list_ascii_of_string_app. apply Forall_app. split.
      * eapply Forall_impl; [exact Hchars|]. intros c Hc%name_char_spec. tauto.
      * simpl. by repeat constructor.
    + done.
    + by apply resolve_member_plain; [right|..].
    + by apply is_special_plain.
  - rewrite !andb_true_iff, negb_true_iff in Hname.
    destruct Hname as (((Hmin%Nat.leb_le & Hmax%Nat.leb_le) & Hchars) & Hsym).
    assert (Forall (λ c, name_char c = true) (list_ascii_of_string name)) as Hall.
    { apply Forall_forall. intros c Hc%list_elem_of_In.
      by eapply forallb_forall in Hchars. }
    assert (name ≠ "") by (intros ->; simpl in Hmin; lia).
    split_and!; [done..| | | |]; [|done| |by apply is_special_plain].
    + eapply Forall_impl; [exact Hall|]. intros c Hc%name_char_spec. tauto.
    + rewrite <-(append_nil_r name) at 1. by apply resolve_member_plain; [left|..].
  - rewrite !andb_true_iff, negb_true_iff in Hname.
    destruct Hname as (((Hmin%Nat.leb_le & Hchars) & Hspecial) & Hfield%Nat.leb_le).
    assert (Forall (λ c, long_name_char c = true) (list_ascii_of_string name)) as Hall.
    { apply Forall_forall. intros c Hc%list_elem_of_In.
      by eapply forallb_forall in Hchars. }
    split_and!; [done| | |done| |done].
    + change (String.length ("#1/" ++ ?d)) with (3 + String.length d). lia.
    + change (list_ascii_of_string ("#1/" ++ ?d))
        with ("#"%char :: "1"%char :: "/"%char :: list_ascii_of_string d).
      repeat (apply Forall_cons; split; [done|]).
      eapply Forall_impl; [apply string_of_uint_digits|]. intros c Hc.
      destruct c as [[] [] [] [] [] [] [] []]; try discriminate Hc; done.
    + by apply resolve_member_extended.
Qed.

(** Reading a chunk that lies at the position of the file. *)
Lemma read_chunk (content pre chunk post : list byte) (n : Z) :
  content = (pre ++ chunk ++ post)%list → n = Z.of_nat (length chunk) →
  Py.read n (Py.File content (length pre))
  = (chunk, Py.File content (length pre + length chunk)).
Proof.
  intros -> ->. rewrite read_take by lia. simpl.
  by rewrite Nat2Z.id, drop_app_length, take_app_length.
Qed.

Lemma ar_records_cons (e : name_form * member) (entries : list (name_form * member)) :
  ar_records (e :: entries)
  = (ar_header (bytes_of (name_field_of e.1 e.2.1)) (length (payload_of e.1 e.2))
     ++ payload_of e.1 e.2
     ++ (if Nat.odd (length (payload_of e.1 e.2)) then [x0a] else [])
     ++ ar_records entries)%list.
Proof. unfold ar_records, ar_entry, ar_member. simpl. by rewrite <-!app_assoc. Qed.

Lemma ar_records_length (entries : list (name_form * member)) :
  Forall valid_entry entries → length entries ≤ length (ar_records entries).
Proof.
  induction 1 as [|e es (_ & Hlen & _ & Hsize & _)%valid_entry_readable _ IH]; [done|].
  rewrite ar_records_cons, !length_app. simpl.
  rewrite ar_header_length; [lia| |done]. by rewrite length_bytes_of.
Qed.

(** The loop on the records of [entries], from a position that the
    alignment step brings to their start. *)
Lemma parse_members_records (entries : list (name_form * member)) :
  Forall valid_entry entries →
  ∀ (content pre junk : list byte) (fuel pos : nat),
    content = (pre ++ ar_records entries ++ junk)%list →
    length junk < 60 →
    Nat.even (length pre) = true →
    length entries < fuel →
    align (Py.File content pos) = Py.File content (length pre) →
    parse_members fuel (Py.File content pos) = Some (Ok entries.*2).
Proof.
  induction 1 as [|e es Hentry _ IH];
    intros content pre junk fuel pos Hcontent Hjunk Heven Hfuel Halign;
    (destruct fuel as [|fuel]; [simpl in Hfuel; lia|]).
  { apply parse_members_short_header. rewrite Halign, Hcontent.
    unfold remaining. simpl. rewrite length_app. lia. }
  apply valid_entry_readable in Hentry
    as (Hne & Hlen & Hchars & Hsize & Hresolve & Hspecial).
  rewrite ar_records_cons in Hcontent.
  destruct e as [form [name data]]. cbn [fst snd] in *.
  set (name_field := name_field_of form name) in *.
  set (payload := payload_of form (name, data)) in *.
  set (header := ar_header (bytes_of name_field) (length payload)) in *.
  set (pad := if Nat.odd (length payload) then [x0a] else []) in *.
  assert (length header = 60) as Hheader.
  { apply ar_header_length; [|done]. by rewrite length_bytes_of. }
  rewrite parse_members_step, Halign.
  rewrite (read_chunk content pre header (payload ++ pad ++ ar_records es ++ junk)%list)
    by (rewrite ?Hheader; first [done|by rewrite Hcontent, <-!app_assoc]).
  rewrite decide_False by lia.
  assert (header_fields header = Ok (name_field, Z.of_nat (length payload))) as ->
    by by apply header_fields_ar_header.
  unfold Py.read_size. destruct (Z.ltb_spec (Z.of_nat (length payload)) (-1)); [lia|].
  rewrite <-length_app.
  rewrite (read_chunk content (pre ++ header)%list payload
             (pad ++ ar_records es ++ junk)%list)
    by (first [done|by rewrite Hcontent, <-!app_assoc]).
  rewrite Hresolve, Hspecial. rewrite fmap_cons. cbn [snd].
  rewrite (IH content (pre ++ header ++ payload ++ pad)%list junk fuel); [done|..].
  - by rewrite Hcontent, <-!app_assoc.
  - done.
  - rewrite !length_app, Hheader, !Nat.even_add, Heven. unfold pad.
    rewrite <-(Nat.negb_odd (length payload)). by destruct (Nat.odd (length payload)).
  - simpl in Hfuel. lia.
  - unfold align. cbn [Py.f_pos].
    assert (Nat.odd (length (pre ++ header) + length payload)
            = Nat.odd (length payload)) as ->.
    { rewrite length_app, Hheader, !Nat.odd_add, <-(Nat.negb_even (length pre)), Heven.
      simpl. by destruct (Nat.odd (length payload)). }
    unfold pad in *. destruct (Nat.odd (length payload)) eqn:Hodd.
    + rewrite <-length_app.
      rewrite (read_chunk content ((pre ++ header) ++ payload)%list [x0a]
                 (ar_records es ++ junk)%list).
      2:{ rewrite Hcontent. by rewrite <-!app_assoc. }
      2:{ done. }
      cbn [snd]. f_equal. rewrite !length_app. simpl. lia.
    + f_equal. rewrite !length_app. simpl. lia.
Qed.

End RoundTrip.

(** X12: the reader reads a well-formed archive back.  Take members whose
    names are held in any of the three forms (in the name field with a
    closing slash, in the name field as they are, or as [#1/N] in front of
    the payload), with names valid for their form and payloads whose
    length fits the size field.  From the magic, then for each member its
    60-byte header, its payload and a pad byte behind a payload of odd
    length, then fewer than 60 further bytes, the reader yields exactly
    these members, names and payloads, in order. *)
Theorem reader_round_trip (entries : list (name_form * member)) (junk : list byte) :
  Forall valid_entry entries →
  length junk < 60 →
  parse_ar (ar_magic ++ ar_records entries ++ junk)%list = Some (Ok entries.*2).
Proof.
  intros Hentries Hjunk. rewrite parse_ar_magic.
  apply (parse_members_records entries Hentries _ ar_magic junk); [done..| |done].
  pose proof (ar_records_length entries Hentries).
  rewrite !length_app. lia.
Qed.

Lemma reader_round_trip_witness :
  parse_ar (ar_magic
            ++ ar_records [(GnuShort, ("a.o", bytes_of "AAA"));
                           (BsdExtended 3, ("ggml-backend.c.o", bytes_of "whisper"));
                           (BsdShort, ("ggml-quants.c.o", bytes_of "BB"));
                           (BsdExtended 0, ("my file.o", bytes_of "llama"))]
            ++ take 30 (ar_header (bytes_of "b.o/") 2))%list
  = Some (Ok [(GnuShort, ("a.o", bytes_of "AAA"));
              (BsdExtended 3, ("ggml-backend.c.o", bytes_of "whisper"));
              (BsdShort, ("ggml-quants.c.o", bytes_of "BB"));
              (BsdExtended 0, ("my file.o", bytes_of "llama"))].*2).
Proof.
  apply (reader_round_trip
           [(GnuShort, ("a.o", bytes_of "AAA"));
            (BsdExtended 3, ("ggml-backend.c.o", bytes_of "whisper"));
            (BsdShort, ("ggml-quants.c.o", bytes_of "BB"));
            (BsdExtended 0, ("my file.o", bytes_of "llama"))]
           (take 30 (ar_header (bytes_of "b.o/") 2))).
  - repeat constructor; vm_compute; lia.
  - vm_compute. lia.
Defined.

Lemma rebuild_success_witness :
  ∃ w', main ar_stub tmp ["dedup-archive.py"; "in.a"; "out.a"]
          (world_with archive_scenario1 (Some (bytes_of "previous output")))
        = Some (Exit 0, w')
        ∧ fs w' !! "out.a" = Some ar_magic
        ∧ last (stdout w') = Some "Done!".
Proof.
  destruct (rebuild_success ar_stub tmp "dedup-archive.py" "in.a" "out.a"
              (world_with archive_scenario1 (Some (bytes_of "previous output")))
              archive_scenario1 members_scenario1)
    as (w' & Hmain & Hfs & Hstdout & _).
  - reflexivity.
  - vm_compute. reflexivity.
  - vm_compute. discriminate.
  - vm_compute. repeat constructor.
  - reflexivity.
  - exists w'. split; [exact Hmain|]. split.
    + rewrite Hfs. vm_compute. reflexivity.
    + rewrite Hstdout. vm_compute. reflexivity.
Defined.

(** X13: a GNU long-name reference is not resolved.  A member whose name
    field is [/N] (the offset of its name in the string table) is yielded
    under the name [/N] itself, with its whole payload; that name is not
    special and is no candidate. *)
Theorem gnu_long_name_is_not_resolved (offset : nat) (data : list byte) :
  resolve_member ("/" ++ Py.str_of_nat offset) data
  = Ok ("/" ++ Py.str_of_nat offset, data)
  ∧ is_special ("/" ++ Py.str_of_nat offset) = false
  ∧ "/" ++ Py.str_of_nat offset ∉ duplicate_candidates.
Proof.
  pose proof (string_of_uint_digits (Nat.to_uint offset)) as Hdigits.
  pose proof (to_uint_not_nil offset) as Hnil.
  unfold Py.str_of_nat.
  destruct (NilEmpty.string_of_uint (Nat.to_uint offset)) as [|c d] eqn:Hd.
  { by destruct (Nat.to_uint offset). }
  assert (Py.rstrip_by (Ascii.eqb "/") (String c d) = String c d) as Hstrip.
  { apply rstrip_by_free. eapply Forall_impl; [exact Hdigits|]. intros c' Hc'.
    destruct c' as [[] [] [] [] [] [] [] []]; try discriminate Hc'; reflexivity. }
  apply Forall_cons in Hdigits as [Hc _]. split_and!.
  - unfold resolve_member, Py.rstrip.
    change (Py.startswith "#1/" ("/" ++ String c d)) with false. cbv iota.
    change ("/" ++ String c d) with (String "/" (String c d)).
    cbn [Py.rstrip_by]. cbn [Py.rstrip_by] in Hstrip. by rewrite Hstrip.
  - unfold is_special. change (Py.startswith "__.SYMDEF" ("/" ++ String c d)) with false.
    apply bool_decide_eq_false. rewrite !elem_of_cons, elem_of_nil.
    intros [[=]|[[= -> _]|[[=]|[]]]]. done.
  - unfold duplicate_candidates. rewrite !elem_of_union, !elem_of_singleton.
    intros Hin. destruct_or!; discriminate Hin.
Qed.

(** X14: when a second pass drops again.  The drop set of the surviving
    names is empty exactly when no candidate name occurred more than twice
    before the first pass: each pass takes one copy of each duplicated
    candidate. *)
Theorem second_pass_drops_iff (names : list string) :
  skip_indices (surviving_names names) = ∅
  ↔ ∀ n, n ∈ duplicate_candidates → occurrences n names ≤ 2.
Proof.
  rewrite <-(leibniz_equiv_iff (skip_indices _) ∅), <-size_empty_iff.
  rewrite skip_indices_first_indices, size_list_to_set by apply first_indices_NoDup.
  rewrite length_fmap.
  change (length (elements ?X)) with (size X).
  rewrite size_empty_iff, (leibniz_equiv_iff (actual_dups _) ∅), actual_dups_empty.
  split; intros Hcount n Hn; specialize (Hcount n Hn).
  - destruct (decide (1 < occurrences n names)) as [Hdup|]; [|lia].
    rewrite surviving_occurrences_dup in Hcount by done. lia.
  - destruct (decide (1 < occurrences n names)) as [Hdup|].
    + rewrite surviving_occurrences_dup by done. lia.
    + pose proof (surviving_occurrences_le names n). lia.
Qed.
